(** * Block-level retry orchestration of the multi-agent workflow

    A shallow embedding of [core/orchestrator.py], [core/agent.py],
    [core/template_loader.py] and [models/task.py], and the properties of
    the workflow engine stated over it.

    Modelling conventions.
    - Python [str] values are [string]s of bytes; phase names, keywords and
      the searched indicator words are ASCII, and [str.lower] is modelled on
      the ASCII letters.
    - Python dictionaries whose iteration order is not observed by the
      executor ([self.results], [self.retry_trackers], [template.tasks]) are
      [gmap]s; the block dictionary, which is iterated in insertion order, is
      an association list.
    - The methods of [MultiAgentOrchestrator] are functions in a state and
      exception monad over the record [Orchestrator]; [print] and [logger]
      calls and [asyncio.sleep] are events appended to a trace.
    - The coding agent, the file system and the compile check are an
      external world, a parameter of the development. *)

From Stdlib Require Import String Ascii List Bool Arith Lia.
From stdpp Require Import base option list gmap sets strings sorting.

Import ListNotations.
Local Open Scope string_scope.

(* ------------------------------------------------------------------------ *)
(** ** Strings as Python uses them *)

Module PyStr.

(** [c.lower()] on one ASCII character. *)
Definition lower_ascii (c : ascii) : ascii :=
  let n := nat_of_ascii c in
  if Nat.leb 65 n && Nat.leb n 90 then ascii_of_nat (n + 32) else c.

(** [s.lower()]. *)
Fixpoint lower (s : string) : string :=
  match s with
  | EmptyString => EmptyString
  | String c s' => String (lower_ascii c) (lower s')
  end.

(** [s.startswith(k)]. *)
Fixpoint startswith (k s : string) : bool :=
  match k, s with
  | EmptyString, _ => true
  | String _ _, EmptyString => false
  | String a k', String b s' => if Ascii.eqb a b then startswith k' s' else false
  end.

(** [k in s]: [k] occurs in [s] as a contiguous substring. *)
Fixpoint contains (k s : string) : bool :=
  startswith k s ||
  match s with
  | EmptyString => false
  | String _ s' => contains k s'
  end.

(** [s.endswith(k)]. *)
Fixpoint endswith (k s : string) : bool :=
  String.eqb k s ||
  match s with
  | EmptyString => false
  | String _ s' => endswith k s'
  end.

(** [any(keyword in s for keyword in keywords)]. *)
Definition any_in (keywords : list string) (s : string) : bool :=
  existsb (fun keyword => contains keyword s) keywords.

End PyStr.

(* ------------------------------------------------------------------------ *)
(** ** models/task.py *)

Inductive AgentRole : Type :=
| PM | UI_DESIGNER | PYTHON_DEVELOPER | TESTER | SECURITY_ENGINEER.

Definition AgentRole_value (r : AgentRole) : string :=
  match r with
  | PM => "pm"
  | UI_DESIGNER => "ui_designer"
  | PYTHON_DEVELOPER => "python_developer"
  | TESTER => "tester"
  | SECURITY_ENGINEER => "security_engineer"
  end.

(** [AgentRole(name)]: [None] stands for the [ValueError]. *)
Definition AgentRole_of_value (name : string) : option AgentRole :=
  if String.eqb name "pm" then Some PM
  else if String.eqb name "ui_designer" then Some UI_DESIGNER
  else if String.eqb name "python_developer" then Some PYTHON_DEVELOPER
  else if String.eqb name "tester" then Some TESTER
  else if String.eqb name "security_engineer" then Some SECURITY_ENGINEER
  else None.

Record AgentTask : Type := mkAgentTask {
  task_role : AgentRole;
  task_prompt : string;
  task_id : string;
  task_dependencies : list AgentRole;
  task_output_file : option string;
  task_context_files : list string
}.

Record AgentResult : Type := mkAgentResult {
  role : AgentRole;
  success : bool;
  output : string;
  result_task_id : string;
  artifacts : list string;
  errors : option string;
  retry_count : nat;
  requires_retry : bool;
  retry_reason : option string
}.

(** [AgentResult.set_retry_required]. *)
Definition set_retry_required (reason : string) (r : AgentResult) : AgentResult :=
  {| role := role r; success := success r; output := output r;
     result_task_id := result_task_id r; artifacts := artifacts r;
     errors := errors r; retry_count := retry_count r;
     requires_retry := true; retry_reason := Some reason |}.

Record RetryEntry : Type := mkRetryEntry {
  entry_attempt : nat;
  entry_triggered_by : string;
  entry_reason : string;
  entry_timestamp : nat
}.

Record PhaseRetryTracker : Type := mkTracker {
  phase_name : string;
  tracker_retry_count : nat;
  max_retries : nat;
  retry_history : list RetryEntry;
  triggered_by : option string;
  tracker_retry_reason : option string
}.

(** [PhaseRetryTracker(phase_name=..., max_retries=...)]. *)
Definition new_tracker (name : string) (ceiling : nat) : PhaseRetryTracker :=
  {| phase_name := name; tracker_retry_count := 0; max_retries := ceiling;
     retry_history := []; triggered_by := None; tracker_retry_reason := None |}.

Definition can_retry (t : PhaseRetryTracker) : bool :=
  Nat.ltb (tracker_retry_count t) (max_retries t).

(** [add_retry_attempt]; [now] is the value of [time.time()]. *)
Definition add_retry_attempt (by_phase reason : string) (now : nat)
    (t : PhaseRetryTracker) : PhaseRetryTracker :=
  let n := tracker_retry_count t + 1 in
  {| phase_name := phase_name t; tracker_retry_count := n;
     max_retries := max_retries t;
     retry_history := retry_history t ++ [mkRetryEntry n by_phase reason now];
     triggered_by := Some by_phase; tracker_retry_reason := Some reason |}.

(* ------------------------------------------------------------------------ *)
(** ** The declarative template ([ProjectTemplate]) *)

Record PhaseInfo : Type := mkPhaseInfo {
  phase : string;
  agent : string;
  dependencies : list string;
  parallel : bool
}.

Record TaskInfo : Type := mkTaskInfo {
  info_agent : string;
  info_title : string;
  info_prompt : string;
  info_output_files : list string;
  info_context_files : list string
}.

Record ProjectTemplate : Type := mkTemplate {
  name : string;
  workflow_phases : list PhaseInfo;
  tasks : gmap string TaskInfo
}.

(* ------------------------------------------------------------------------ *)
(** ** core/orchestrator.py: the block planner

    [_define_workflow_blocks] fills a dictionary, one list comprehension over
    all phases per keyword category, and a catch-all computed with sets. *)

Module BlockPlanner.

Definition planning_keywords : list string := ["planning"; "concept"].
Definition design_keywords : list string :=
  ["ui"; "design"; "wireframe"; "schema"; "database_design"].
Definition dev_test_keywords : list string :=
  ["development"; "dev"; "test"; "testing"; "qa"; "bug_fixing"; "retesting"].
Definition security_keywords : list string := ["security"; "audit"].

(** [[p for p in all_phases if any(keyword in p.lower() for keyword in ks)]] *)
Definition select (ks : list string) (all_phases : list string) : list string :=
  List.filter (fun p => PyStr.any_in ks (PyStr.lower p)) all_phases.

(** [if phases: blocks[name] = phases] *)
Definition add_block (block_name : string) (phases : list string)
    (blocks : list (string * list string)) : list (string * list string) :=
  match phases with
  | [] => blocks
  | _ :: _ => blocks ++ [(block_name, phases)]
  end.

(** [covered_phases]: the union of the blocks built so far. *)
Definition covered (blocks : list (string * list string)) : gset string :=
  foldr (fun b acc => list_to_set (snd b) ∪ acc) ∅ blocks.

(** The order in which a Python process lists the elements of a set of
    strings.  It follows the hashes of the strings, which change from one
    process to the next; all that is known is that every element is listed
    once. *)
Record SetOrder : Type := {
  listing : gset string -> list string;
  listing_perm : forall s, listing s ≡ₚ elements s
}.

(** The order of stdpp's [elements], and its reverse. *)
Definition elements_order : SetOrder :=
  {| listing := elements; listing_perm := fun s => Permutation_refl (elements s) |}.

Definition reversed_order : SetOrder :=
  {| listing := fun s => reverse (elements s);
     listing_perm := fun s => reverse_Permutation (elements s) |}.

(** [list(set(all_phases) - covered_phases)], listed in the order of the
    process. *)
Definition uncovered (order : SetOrder) (all_phases : list string)
    (blocks : list (string * list string)) : list string :=
  listing order ((list_to_set all_phases : gset string) ∖ covered blocks).

Definition all_phase_names (t : ProjectTemplate) : list string :=
  map phase (workflow_phases t).

Definition _define_workflow_blocks (order : SetOrder) (t : ProjectTemplate)
    : list (string * list string) :=
  let all_phases := all_phase_names t in
  let blocks := add_block "planning_no_retry" (select planning_keywords all_phases) [] in
  let blocks := add_block "design" (select design_keywords all_phases) blocks in
  let blocks := add_block "development_testing" (select dev_test_keywords all_phases) blocks in
  let blocks := add_block "security" (select security_keywords all_phases) blocks in
  add_block "misc" (uncovered order all_phases blocks) blocks.

(** The block the specification assigns to a phase: the first category, in
    precedence order, one of whose keywords occurs in the lowered name. *)
Definition first_match (p : string) : string :=
  let l := PyStr.lower p in
  if PyStr.any_in planning_keywords l then "planning_no_retry"
  else if PyStr.any_in design_keywords l then "design"
  else if PyStr.any_in dev_test_keywords l then "development_testing"
  else if PyStr.any_in security_keywords l then "security"
  else "misc".

(** The four keyword blocks, before the catch-all is added. *)
Definition keyword_blocks (all : list string) : list (string * list string) :=
  add_block "security" (select security_keywords all)
    (add_block "development_testing" (select dev_test_keywords all)
       (add_block "design" (select design_keywords all)
          (add_block "planning_no_retry" (select planning_keywords all) []))).

(** Whether a phase matches some keyword category. *)
Definition matches_any (p : string) : bool :=
  let l := PyStr.lower p in
  PyStr.any_in planning_keywords l || PyStr.any_in design_keywords l
  || PyStr.any_in dev_test_keywords l || PyStr.any_in security_keywords l.

(** The membership test of each block, by its name. *)
Definition member_of (block_name p : string) : bool :=
  let l := PyStr.lower p in
  if String.eqb block_name "planning_no_retry" then PyStr.any_in planning_keywords l
  else if String.eqb block_name "design" then PyStr.any_in design_keywords l
  else if String.eqb block_name "development_testing" then PyStr.any_in dev_test_keywords l
  else if String.eqb block_name "security" then PyStr.any_in security_keywords l
  else if String.eqb block_name "misc" then negb (matches_any p)
  else false.

End BlockPlanner.

(* ------------------------------------------------------------------------ *)
(** ** core/template_loader.py: the task compiler *)

Module TemplateLoader.

Inductive LoaderLog : Type :=
| WarnTaskInfoNotFound (phase_name : string)
| ErrRoleNotAvailable (agent_name : string)
| ErrInvalidRole (agent_name : string).

(** [name in available_roles]. *)
Definition is_in (x : string) (l : list string) : bool :=
  existsb (String.eqb x) l.

(** [[AgentRole(dep) for dep in dependencies if dep in available_roles]];
    [None] is the [ValueError] of [AgentRole(dep)], which nothing catches. *)
Fixpoint dependency_roles (available_roles dependencies : list string)
    : option (list AgentRole) :=
  match dependencies with
  | [] => Some []
  | dep :: rest =>
      if is_in dep available_roles then
        match AgentRole_of_value dep, dependency_roles available_roles rest with
        | Some r, Some rs => Some (r :: rs)
        | _, _ => None
        end
      else dependency_roles available_roles rest
  end.

(** The loop of [create_agent_tasks] over [template.workflow['phases']]:
    the tasks created and what was logged, or [None] for the [ValueError]. *)
Fixpoint create_tasks (available_roles : list string)
    (catalog : gmap string TaskInfo) (phases : list PhaseInfo)
    : option (list AgentTask * list LoaderLog) :=
  match phases with
  | [] => Some ([], [])
  | phase_info :: rest =>
      let phase_name := phase phase_info in
      let agent_name := agent phase_info in
      let skip entry :=
        match create_tasks available_roles catalog rest with
        | Some (ts, logs) => Some (ts, entry :: logs)
        | None => None
        end in
      match catalog !! phase_name with
      | None => skip (WarnTaskInfoNotFound phase_name)
      | Some task_info =>
          if negb (is_in agent_name available_roles)
          then skip (ErrRoleNotAvailable agent_name)
          else
            match AgentRole_of_value agent_name with
            | None => skip (ErrInvalidRole agent_name)
            | Some agent_role =>
                match dependency_roles available_roles (dependencies phase_info) with
                | None => None
                | Some deps =>
                    let task :=
                      {| task_role := agent_role;
                         task_prompt := info_prompt task_info;
                         task_id := agent_name ++ "_" ++ phase_name;
                         task_dependencies := deps;
                         task_output_file := head (info_output_files task_info);
                         task_context_files := info_context_files task_info |} in
                    match create_tasks available_roles catalog rest with
                    | Some (ts, logs) => Some (task :: ts, logs)
                    | None => None
                    end
                end
            end
      end
  end.

Definition create_agent_tasks (available_roles : list string)
    (template : ProjectTemplate) : option (list AgentTask * list LoaderLog) :=
  create_tasks available_roles (tasks template) (workflow_phases template).

(** A phase for which [create_agent_tasks] builds a task: it has an entry in
    the task catalog and its agent is an available role and an [AgentRole]. *)
Definition compilable (available_roles : list string)
    (catalog : gmap string TaskInfo) (phase_info : PhaseInfo) : bool :=
  match catalog !! phase phase_info with
  | None => false
  | Some _ =>
      is_in (agent phase_info) available_roles &&
      match AgentRole_of_value (agent phase_info) with
      | Some _ => true
      | None => false
      end
  end.

(** [f"{agent_name}_{phase_name}"]. *)
Definition task_id_of (phase_info : PhaseInfo) : string :=
  agent phase_info ++ "_" ++ phase phase_info.

End TemplateLoader.

(* ------------------------------------------------------------------------ *)
(** ** The trace, the exceptions and the monad of the orchestrator *)

(** What the run prints, logs or waits for, in program order. *)
Inductive Event : Type :=
| EvSystem (level component : string)            (* log_manager.log_system_event *)
| EvBlocksDefined (blocks : list (string * list string))
| EvBlockStart (block_name : string)
| EvSkipUnmet (phase_name : string)              (* "Skipping phase ... unmet dependencies" *)
| EvExecuting (phase_name : string)              (* "Executing phase: ..." *)
| EvPhaseError (phase_name : string)             (* "Phase ... failed: ..." *)
| EvBugsFound (phase_name : string) (bugs : list string)
| EvNonWorking (phase_name : string)
| EvBlockFailedAt (block_name phase_name : string)
| EvNoTask (phase_name : string)                 (* "No task found for phase: ..." *)
| EvBlockCompleted (block_name : string)
| EvNoRetryAllowed (block_name : string)
| EvRetrying (block_name : string) (attempt ceiling : nat) (failed : option string)
| EvSleep (seconds : nat)                        (* asyncio.sleep *)
| EvTriggerRetry (retry_phase by_phase : string) (attempt : nat).

Inductive Exn : Type :=
| NoTemplateLoaded
| BlockFailedNoRetry (block_name : string) (failed : option string)
| BlockFailedAfter (block_name : string) (attempts : nat) (failed : option string).

Inductive outcome (A : Type) : Type :=
| Return (a : A)
| Raise (e : Exn).
Arguments Return {A} a.
Arguments Raise {A} e.

Definition is_raise {A} (o : outcome A) : bool :=
  match o with Raise _ => true | Return _ => false end.

Section State.

(** The world outside the orchestrator: the coding agent, the clock, the
    file system, the Python tool chain. *)
Context {World : Type}.

Record Orchestrator : Type := mkOrchestrator {
  project_template : option ProjectTemplate;
  workflow_tasks : list AgentTask;
  results : gmap string AgentResult;
  retry_trackers : gmap string PhaseRetryTracker;
  trace : list Event;
  world : World
}.

Definition set_results (f : gmap string AgentResult -> gmap string AgentResult)
    (st : Orchestrator) : Orchestrator :=
  {| project_template := project_template st; workflow_tasks := workflow_tasks st;
     results := f (results st); retry_trackers := retry_trackers st;
     trace := trace st; world := world st |}.

Definition set_trackers
    (f : gmap string PhaseRetryTracker -> gmap string PhaseRetryTracker)
    (st : Orchestrator) : Orchestrator :=
  {| project_template := project_template st; workflow_tasks := workflow_tasks st;
     results := results st; retry_trackers := f (retry_trackers st);
     trace := trace st; world := world st |}.

Definition set_tasks (f : list AgentTask -> list AgentTask)
    (st : Orchestrator) : Orchestrator :=
  {| project_template := project_template st; workflow_tasks := f (workflow_tasks st);
     results := results st; retry_trackers := retry_trackers st;
     trace := trace st; world := world st |}.

Definition set_world (w : World) (st : Orchestrator) : Orchestrator :=
  {| project_template := project_template st; workflow_tasks := workflow_tasks st;
     results := results st; retry_trackers := retry_trackers st;
     trace := trace st; world := w |}.

Definition emit (e : Event) (st : Orchestrator) : Orchestrator :=
  {| project_template := project_template st; workflow_tasks := workflow_tasks st;
     results := results st; retry_trackers := retry_trackers st;
     trace := trace st ++ [e]; world := world st |}.

(** State and exceptions: a raised exception keeps the mutations made so far. *)
Definition M (A : Type) : Type := Orchestrator -> outcome A * Orchestrator.

Definition ret {A} (a : A) : M A := fun st => (Return a, st).
Definition raise {A} (e : Exn) : M A := fun st => (Raise e, st).
Definition bind {A B} (m : M A) (k : A -> M B) : M B :=
  fun st =>
    match m st with
    | (Return a, st') => k a st'
    | (Raise e, st') => (Raise e, st')
    end.
Definition gets {A} (f : Orchestrator -> A) : M A := fun st => (Return (f st), st).
Definition modify (f : Orchestrator -> Orchestrator) : M unit :=
  fun st => (Return tt, f st).
Definition log (e : Event) : M unit := modify (emit e).
(** [try: m  except Exception as e: handler e]. *)
Definition try_except {A} (m : M A) (handler : Exn -> M A) : M A :=
  fun st =>
    match m st with
    | (Return a, st') => (Return a, st')
    | (Raise e, st') => handler e st'
    end.

End State.

Arguments Orchestrator World : clear implicits.
Arguments M World A : clear implicits.

Declare Scope orch_scope.
Delimit Scope orch_scope with orch.
Notation "x <- m ;; k" := (bind m (fun x => k))
  (at level 20, m at level 99, k at level 200, only parsing) : orch_scope.
Notation "m ;; k" := (bind m (fun _ => k))
  (at level 100, k at level 200, only parsing) : orch_scope.
Notation "' pat <- m ;; k" := (bind m (fun x => match x with pat => k end))
  (at level 20, pat pattern, m at level 99, k at level 200, only parsing) : orch_scope.
Local Open Scope orch_scope.

(* ------------------------------------------------------------------------ *)
(** ** core/agent.py: the executor capability *)

Definition str_of_optional (o : option string) : string :=
  match o with Some s => s | None => "None" end.

(** The world outside the orchestrator, as the code uses it. *)
Class WorldOps (World : Type) : Type := {
  (** The body of the [try] block of [ClaudeCodeAgent.execute_task] run by the
      agent of a role on a task: context loading, prompt building and
      [_run_claude_code_sdk].  [inl msg]: it raised an [Exception] whose
      [str] is [msg]; [inr (output, artifacts)]: the dictionary it returned. *)
  agent_try_body :
    AgentRole -> AgentTask -> World -> (string + string * list string) * World;
  (** [str(int(time.time()))]. *)
  time_str : World -> string;
  (** [(self.project_dir / name).exists()]. *)
  path_exists : World -> string -> bool;
  (** [open(path).read()]; [None] when it raises. *)
  read_text : World -> string -> option string;
  (** The exit status of [py_compile] on app.py is 0 and nothing raised. *)
  py_compile_ok : World -> bool;
  (** The order in which the process lists a set ([list(uncovered_phases)]). *)
  set_order : BlockPlanner.SetOrder
}.

Section Executor.

Context `{WorldOps World}.

(** [ClaudeCodeAgent.execute_task] of the agent whose role is [agent_role]. *)
Definition execute_task (agent_role : AgentRole) (task : AgentTask) (w : World)
    : AgentResult * World :=
  let task :=
    if String.eqb (task_id task) ""
    then {| task_role := task_role task; task_prompt := task_prompt task;
            task_id := AgentRole_value agent_role ++ "_" ++ time_str w;
            task_dependencies := task_dependencies task;
            task_output_file := task_output_file task;
            task_context_files := task_context_files task |}
    else task in
  match agent_try_body agent_role task w with
  | (inr (out, arts), w') =>
      ({| role := agent_role; success := true; output := out;
          result_task_id := task_id task; artifacts := arts; errors := None;
          retry_count := 0; requires_retry := false; retry_reason := None |}, w')
  | (inl error_msg, w') =>
      ({| role := agent_role; success := false; output := "";
          result_task_id := task_id task; artifacts := []; errors := Some error_msg;
          retry_count := 0; requires_retry := false; retry_reason := None |}, w')
  end.

(* ---------------------------------------------------------------------- *)
(** ** core/orchestrator.py: dependency gate, evaluator, phase execution *)

Abbreviation Orch := (Orchestrator World).
Abbreviation Op := (M World).

(** [_check_dependencies]. *)
Fixpoint _check_dependencies (deps : list string) : Op bool :=
  match deps with
  | [] => ret true
  | dependency :: rest =>
      res <- gets results ;;
      match res !! dependency with
      | None => ret false
      | Some r => if negb (success r) then ret false else _check_dependencies rest
      end
  end.

(** [_find_task_for_phase]: the first task whose id ends with "_<phase>",
    with its position in [workflow_tasks], which identifies the object. *)
Fixpoint find_task_from (i : nat) (phase_name : string) (ts : list AgentTask)
    : option (nat * AgentTask) :=
  match ts with
  | [] => None
  | task :: ts' =>
      if PyStr.endswith ("_" ++ phase_name) (task_id task) then Some (i, task)
      else find_task_from (S i) phase_name ts'
  end.

Definition _find_task_for_phase (phase_name : string) : Op (option (nat * AgentTask)) :=
  gets (fun st => find_task_from 0 phase_name (workflow_tasks st)).

(** [_get_phase_info], on the loaded template. *)
Definition _get_phase_info (t : ProjectTemplate) (phase_name : string)
    : option PhaseInfo :=
  List.find (fun phase_info => String.eqb (phase phase_info) phase_name)
            (workflow_phases t).

(** [_get_available_context_files]. *)
Definition _get_available_context_files (w : World) (file_list : list string)
    : list string :=
  List.filter (path_exists w) file_list.

(** [_is_testing_phase]. *)
Definition _is_testing_phase (phase_name : string) : bool :=
  PyStr.any_in ["test"; "testing"; "qa"; "verification"] (PyStr.lower phase_name).

Definition bug_indicators : list (string * string) :=
  [("failed", "test failures detected");
   ("error", "errors found in testing");
   ("exception", "exceptions during testing");
   ("bug", "bugs identified");
   ("issue", "issues found");
   ("problem", "problems detected");
   ("fix", "fixes needed")].

(** The report scan of one artifact in [_analyze_test_results]. *)
Definition report_bugs (w : World) (artifact : string) : list string :=
  if PyStr.contains "test" (PyStr.lower artifact)
     && PyStr.contains "report" (PyStr.lower artifact)
  then
    if path_exists w artifact then
      match read_text w artifact with
      | Some content =>
          let content := PyStr.lower content in
          if PyStr.contains "fail" content || PyStr.contains "error" content
          then ["Issues found in " ++ artifact] else []
      | None => []
      end
    else []
  else [].

(** [_analyze_test_results]. *)
Definition _analyze_test_results (w : World) (result : AgentResult) : list string :=
  let output_lower := PyStr.lower (output result) in
  let bugs :=
    flat_map (fun '(indicator, description) =>
                if PyStr.contains indicator output_lower then [description] else [])
             bug_indicators in
  bugs ++ flat_map (report_bugs w) (artifacts result).

(** [_validate_development_result]. *)
Definition _validate_development_result (w : World) : bool :=
  if negb (path_exists w "app.py") then false else py_compile_ok w.

(** [_execute_phase].  The result object is stored in [self.results] and
    then annotated in place, so the stored entry carries the annotation. *)
Definition _execute_phase (phase_name : string) (i : nat) (task : AgentTask)
    : Op unit :=
  log (EvExecuting phase_name) ;;
  w <- gets world ;;
  let context_files := _get_available_context_files w (task_context_files task) in
  let task :=
    {| task_role := task_role task; task_prompt := task_prompt task;
       task_id := task_id task; task_dependencies := task_dependencies task;
       task_output_file := task_output_file task;
       task_context_files := context_files |} in
  modify (set_tasks (fun ts => <[i := task]> ts)) ;;
  let '(result, w') := execute_task (task_role task) task w in
  modify (set_world w') ;;
  modify (set_results (fun res => <[phase_name := result]> res)) ;;
  let annotate reason :=
    modify (set_results
              (fun res => <[phase_name := set_retry_required reason result]> res)) in
  if negb (success result) then
    log (EvPhaseError phase_name) ;;
    annotate ("Phase execution failed: " ++ str_of_optional (errors result))
  else if _is_testing_phase phase_name then
    let bugs := _analyze_test_results w' result in
    match bugs with
    | [] => ret tt
    | _ :: _ =>
        log (EvBugsFound phase_name bugs) ;;
        annotate ("Bugs found during testing: " ++ String.concat ", " bugs)
    end
  else if existsb (String.eqb (PyStr.lower phase_name)) ["development"; "bug_fixing"] then
    if negb (_validate_development_result w') then
      log (EvNonWorking phase_name) ;;
      annotate "Development validation failed - code has runtime errors"
    else ret tt
  else ret tt.

(* ---------------------------------------------------------------------- *)
(** ** core/orchestrator.py: the block loop *)

Definition max_block_retries : nat := 5.

(** ['no_retry' in block_name]. *)
Definition is_no_retry_block (block_name : string) : bool :=
  PyStr.contains "no_retry" block_name.

Definition effective_max_retries (block_name : string) : nat :=
  if is_no_retry_block block_name then 1 else max_block_retries.

(** The [for phase_name in block_phases] loop of one attempt.  It returns
    [(block_success, failed_phase)]; [break] is the early return. *)
Fixpoint run_phases (t : ProjectTemplate) (block_name : string)
    (block_phases : list string) : Op (bool * option string) :=
  match block_phases with
  | [] => ret (true, None)
  | phase_name :: rest =>
      match _get_phase_info t phase_name with
      | None => run_phases t block_name rest
      | Some phase_info =>
          satisfied <- _check_dependencies (dependencies phase_info) ;;
          if negb satisfied then
            log (EvSkipUnmet phase_name) ;;
            run_phases t block_name rest
          else
            found <- _find_task_for_phase phase_name ;;
            match found with
            | Some (i, task) =>
                _execute_phase phase_name i task ;;
                res <- gets results ;;
                match res !! phase_name with
                | Some result =>
                    if negb (success result) then
                      log (EvBlockFailedAt block_name phase_name) ;;
                      ret (false, Some phase_name)
                    else run_phases t block_name rest
                | None =>
                    log (EvBlockFailedAt block_name phase_name) ;;
                    ret (false, Some phase_name)
                end
            | None =>
                log (EvNoTask phase_name) ;;
                ret (false, Some phase_name)
            end
      end
  end.

(** [for phase_name in block_phases: if phase_name in self.results:
    del self.results[phase_name]]. *)
Definition clear_block_results (block_phases : list string)
    (res : gmap string AgentResult) : gmap string AgentResult :=
  foldl (fun acc phase_name => delete phase_name acc) res block_phases.

(** The [else] branch after a failed attempt; [retry_count] is the counter
    before [retry_count += 1] and [again] the next turn of the [while]. *)
Definition on_block_failure (block_name : string) (block_phases : list string)
    (retry_count : nat) (failed_phase : option string) (again : Op unit)
    : Op unit :=
  let retry_count := retry_count + 1 in
  if is_no_retry_block block_name then
    log (EvNoRetryAllowed block_name) ;;
    raise (BlockFailedNoRetry block_name failed_phase)
  else if Nat.ltb retry_count (effective_max_retries block_name) then
    log (EvRetrying block_name (retry_count + 1)
                    (effective_max_retries block_name) failed_phase) ;;
    modify (set_results (clear_block_results block_phases)) ;;
    log (EvSleep 2) ;;
    again
  else
    raise (BlockFailedAfter block_name (effective_max_retries block_name)
                            failed_phase).

(** One turn of [while retry_count < effective_max_retries]: the attempt
    and the branch on [block_success]. *)
Definition while_turn (t : ProjectTemplate) (block_name : string)
    (block_phases : list string) (retry_count : nat) (again : Op unit)
    : Op unit :=
  '(block_success, failed_phase) <- run_phases t block_name block_phases ;;
  if block_success then log (EvBlockCompleted block_name)
  else on_block_failure block_name block_phases retry_count failed_phase again.

(** [while retry_count < effective_max_retries].  The recursion is on
    [remaining = effective_max_retries - retry_count]: the guard fails
    exactly when [remaining] is 0, and a retry decreases it by one. *)
Fixpoint block_loop (t : ProjectTemplate) (block_name : string)
    (block_phases : list string) (remaining : nat) : Op unit :=
  match remaining with
  | 0 => ret tt
  | S remaining' =>
      while_turn t block_name block_phases
        (effective_max_retries block_name - remaining)
        (block_loop t block_name block_phases remaining')
  end.

(** The body of [for block_name, block_phases in workflow_blocks.items()]. *)
Definition run_block (t : ProjectTemplate) (block : string * list string)
    : Op unit :=
  log (EvBlockStart (fst block)) ;;
  block_loop t (fst block) (snd block) (effective_max_retries (fst block)).

Fixpoint run_blocks (t : ProjectTemplate) (blocks : list (string * list string))
    : Op unit :=
  match blocks with
  | [] => ret tt
  | block :: rest => run_block t block ;; run_blocks t rest
  end.

(** [_execute_workflow_with_retries]. *)
Definition _execute_workflow_with_retries (t : ProjectTemplate) : Op unit :=
  let workflow_blocks := BlockPlanner._define_workflow_blocks set_order t in
  log (EvBlocksDefined workflow_blocks) ;;
  run_blocks t workflow_blocks.

(** [self.retry_trackers[phase_name] = PhaseRetryTracker(...)] for every
    phase; the attribute [max_cross_phase_retries] is never set, so the
    ceiling is the default 3. *)
Definition init_retry_trackers (t : ProjectTemplate)
    (trackers : gmap string PhaseRetryTracker) : gmap string PhaseRetryTracker :=
  foldl (fun acc phase_info =>
           <[phase phase_info := new_tracker (phase phase_info) 3]> acc)
        trackers (workflow_phases t).

(** [execute_workflow]. *)
Definition execute_workflow : Op (gmap string AgentResult) :=
  template <- gets project_template ;;
  match template with
  | None => raise NoTemplateLoaded
  | Some t =>
      log (EvSystem "info" "orchestrator") ;;
      try_except
        (modify (set_trackers (init_retry_trackers t)) ;;
         _execute_workflow_with_retries t ;;
         log (EvSystem "info" "orchestrator"))
        (fun e => log (EvSystem "error" "orchestrator") ;; raise e) ;;
      gets results
  end.

(* ---------------------------------------------------------------------- *)
(** ** core/orchestrator.py: the phase-level retry trigger, which nothing calls *)

(** [_get_phases_from]. *)
Fixpoint phases_from (start_phase : string) (start_found : bool)
    (ps : list PhaseInfo) : list string :=
  match ps with
  | [] => []
  | phase_info :: ps' =>
      let start_found := start_found || String.eqb (phase phase_info) start_phase in
      if start_found then phase phase_info :: phases_from start_phase start_found ps'
      else phases_from start_phase start_found ps'
  end.

Definition _get_phases_from (t : ProjectTemplate) (start_phase : string)
    : list string :=
  phases_from start_phase false (workflow_phases t).

(** [_trigger_phase_retry]; [None] is the [KeyError] of
    [self.retry_trackers[retry_phase]]; [now] is [time.time()]. *)
Definition _trigger_phase_retry (t : ProjectTemplate) (now : nat)
    (retry_phase by_phase reason : string) (st : Orch) : option Orch :=
  match retry_trackers st !! retry_phase with
  | None => None
  | Some tracker =>
      let tracker := add_retry_attempt by_phase reason now tracker in
      let st := set_trackers (fun ts => <[retry_phase := tracker]> ts) st in
      let st := set_results (clear_block_results (_get_phases_from t retry_phase)) st in
      Some (emit (EvTriggerRetry retry_phase by_phase (tracker_retry_count tracker)) st)
  end.

(* ---------------------------------------------------------------------- *)
(** ** Vocabulary for the statements about the block loop *)

(** What [_check_dependencies] computes, as a function of the result map. *)
Definition deps_satisfied (deps : list string) (res : gmap string AgentResult)
    : bool :=
  forallb (fun d => match res !! d with Some r => success r | None => false end)
          deps.

(** The state in which the next attempt starts after the attempt numbered
    [retry_count] (from 0) failed at [failed_phase] and left [st]. *)
Definition retry_state (block_name : string) (block_phases : list string)
    (retry_count : nat) (failed_phase : option string) (st : Orch) : Orch :=
  emit (EvSleep 2)
    (set_results (clear_block_results block_phases)
       (emit (EvRetrying block_name (retry_count + 1 + 1)
                (effective_max_retries block_name) failed_phase) st)).

(** [attempts t b phs k st j st']: the block [b], whose attempt [k] starts
    in [st], comes to start its attempt [j] in [st']; each step is a failed
    attempt of a retryable block below its ceiling. *)
Inductive attempts (t : ProjectTemplate) (block_name : string)
    (block_phases : list string) : nat -> Orch -> nat -> Orch -> Prop :=
| attempts_here k st : attempts t block_name block_phases k st k st
| attempts_retry k st failed_phase st1 j st' :
    run_phases t block_name block_phases st = (Return (false, failed_phase), st1) ->
    is_no_retry_block block_name = false ->
    S k < effective_max_retries block_name ->
    attempts t block_name block_phases (S k)
      (retry_state block_name block_phases k failed_phase st1) j st' ->
    attempts t block_name block_phases k st j st'.

(** The state in which [execute_workflow] enters the loop over the blocks. *)
Definition workflow_entry (t : ProjectTemplate) (st : Orch) : Orch :=
  emit (EvBlocksDefined (BlockPlanner._define_workflow_blocks set_order t))
    (set_trackers (init_retry_trackers t)
       (emit (EvSystem "info" "orchestrator") st)).

(** The events a computation added to the trace. *)
Definition emitted (st st' : Orch) (evs : list Event) : Prop :=
  trace st' = (trace st ++ evs)%list.

(** What one attempt leaves behind.  [evs] are the events of the attempt. *)
Record attempt_facts (t : ProjectTemplate) (b : string) (phases : list string)
    (st : Orch) (ok : bool) (fp : option string) (st1 : Orch)
    (evs : list Event) : Prop := {
  af_emitted : emitted st st1 evs;
  af_frame : forall q,
    results st1 !! q = results st !! q \/ In (EvExecuting q) evs;
  af_executed_in : forall q, In (EvExecuting q) evs -> In q phases;
  af_good : forall q,
    In (EvExecuting q) evs -> fp <> Some q ->
    exists r, results st1 !! q = Some r /\ success r = true;
  af_ok : ok = true <-> fp = None;
  af_failed : ok = false ->
    exists p, fp = Some p /\ In p phases /\
      ((find_task_from 0 p (workflow_tasks st1) = None /\ In (EvNoTask p) evs) \/
       (In (EvExecuting p) evs /\
        exists r, results st1 !! p = Some r /\ success r = false));
  af_trackers : retry_trackers st1 = retry_trackers st;
  af_template : project_template st1 = project_template st
}.

End Executor.

(* ------------------------------------------------------------------------ *)
(** ** Concrete workflows *)

Module Demo.

(** A scripted world: the outcomes of the successive agent calls; once the
    script is used up every call succeeds with an empty output. *)
Definition Script : Type := list (string + string * list string).

(** The scripted world of a process that lists sets in [order], with the
    files [existing] in the project directory; no file can be read and the
    compile check fails. *)
Definition scripted_with (order : BlockPlanner.SetOrder) (existing : list string)
    : WorldOps Script := {|
  agent_try_body := fun _ _ w =>
    match w with
    | [] => (inr ("", []), [])
    | o :: w' => (o, w')
    end;
  time_str := fun _ => "0";
  path_exists := fun _ name => existsb (String.eqb name) existing;
  read_text := fun _ _ => None;
  py_compile_ok := fun _ => false;
  set_order := order
|}.

(** The scripted world with no file, in a process that lists sets as
    [elements] does. *)
#[global] Instance scripted : WorldOps Script :=
  scripted_with BlockPlanner.elements_order [].

(** A freshly constructed orchestrator. *)
Definition init (t : ProjectTemplate) (ts : list AgentTask) (w : Script)
    : Orchestrator Script :=
  {| project_template := Some t; workflow_tasks := ts; results := ∅;
     retry_trackers := ∅; trace := []; world := w |}.

Definition roles : list string :=
  ["pm"; "ui_designer"; "python_developer"; "tester"; "security_engineer"].

(** [self.workflow_tasks = create_agent_tasks(template)]. *)
Definition compile (t : ProjectTemplate) : list AgentTask :=
  match TemplateLoader.create_agent_tasks roles t with
  | Some (ts, _) => ts
  | None => []
  end.

Definition fresh (t : ProjectTemplate) (w : Script) : Orchestrator Script :=
  init t (compile t) w.

Definition info (p : string) : TaskInfo := mkTaskInfo "" p p [] [].

(** development, then testing which depends on it. *)
Definition dev_test : ProjectTemplate :=
  mkTemplate "demo"
    [mkPhaseInfo "development" "python_developer" [] false;
     mkPhaseInfo "testing" "tester" ["development"] false]
    (<["development" := info "development"]> (<["testing" := info "testing"]> ∅)).

(** development succeeds twice; testing fails, then succeeds. *)
Definition fail_once : Script :=
  [inr ("built", []); inl "boom"; inr ("rebuilt", []); inr ("all green", [])].

(** planning, then development; planning fails. *)
Definition plan_dev : ProjectTemplate :=
  mkTemplate "demo"
    [mkPhaseInfo "planning" "pm" [] false;
     mkPhaseInfo "development" "python_developer" ["planning"] false]
    (<["planning" := info "planning"]> (<["development" := info "development"]> ∅)).


(** development has no entry in the task catalog. *)
Definition no_catalog : ProjectTemplate :=
  mkTemplate "demo"
    [mkPhaseInfo "development" "python_developer" [] false] ∅.

(** One phase matching two keyword categories. *)
Definition ui_dev : ProjectTemplate :=
  mkTemplate "demo" [mkPhaseInfo "ui_development" "python_developer" [] false] ∅.

Definition dev_test_block : list string := ["development"; "testing"].

(** The attempt of the block that starts in a fresh orchestrator. *)
Definition first_attempt : Orchestrator Demo.Script :=
  Demo.fresh Demo.dev_test Demo.fail_once.

Definition after_first_attempt : Orchestrator Demo.Script :=
  snd (run_phases Demo.dev_test "development_testing" dev_test_block first_attempt).

(** The tester's task of [dev_test], second in [workflow_tasks]. *)
Definition testing_task : AgentTask :=
  {| task_role := TESTER; task_prompt := "testing"; task_id := "tester_testing";
     task_dependencies := []; task_output_file := None; task_context_files := [] |}.

(** A tester whose report mentions an error. *)
Definition error_report : Script := [inr ("1 error found", [])].

(** planning fails. *)
Definition plan_fails : Orchestrator Script := fresh plan_dev [inl "boom"].

Definition plan_fails_entry : Orchestrator Script :=
  workflow_entry plan_dev plan_fails.

Definition after_planning : Orchestrator Script :=
  snd (run_phases plan_dev "planning_no_retry" ["planning"]
         (emit (EvBlockStart "planning_no_retry") plan_fails_entry)).



(** One phase whose task asks for two context files. *)
Definition with_context : ProjectTemplate :=
  mkTemplate "demo"
    [mkPhaseInfo "development" "python_developer" [] false]
    (<["development" :=
         mkTaskInfo "" "development" "development" []
           ["requirements.md"; "design.md"]]> ∅).

(** The scripted world in which requirements.md is the only file. *)
Definition one_file : WorldOps Script :=
  scripted_with BlockPlanner.elements_order ["requirements.md"].

(** release, then deploy which depends on it: both go to the catch-all
    block. *)
Definition release_deploy : ProjectTemplate :=
  mkTemplate "demo"
    [mkPhaseInfo "release" "pm" [] false;
     mkPhaseInfo "deploy" "pm" ["release"] false]
    (<["release" := info "release"]> (<["deploy" := info "deploy"]> ∅)).

(** Every call succeeds but the second, fourth, ... of the first ten. *)
Definition every_other_fails : Script :=
  [inr ("ok", []); inl "boom"; inr ("ok", []); inl "boom"; inr ("ok", []);
   inl "boom"; inr ("ok", []); inl "boom"; inr ("ok", []); inl "boom"].

(** The state the retry scenario ends in. *)
Definition after_run : Orchestrator Script := snd (execute_workflow first_attempt).

(** The testing phase of [dev_test]. *)
Definition testing_phase : PhaseInfo :=
  mkPhaseInfo "testing" "tester" ["development"] false.

(** A numbering of the phases of [dev_test] in which testing comes after
    development. *)
Definition rank (p : string) : nat := if String.eqb p "testing" then 1 else 0.

End Demo.

(* ------------------------------------------------------------------------ *)
(** ** models/task.py: a tracker under a sequence of retries *)

(** Successive calls of [add_retry_attempt]; a call is its [triggered_by],
    its [reason] and the clock value it reads. *)
Definition add_retry_attempts (calls : list (string * string * nat))
    (t : PhaseRetryTracker) : PhaseRetryTracker :=
  foldl (fun acc '(by_phase, reason, now) => add_retry_attempt by_phase reason now acc)
        t calls.

(* ------------------------------------------------------------------------ *)
(** ** core/orchestrator.py: retry bookkeeping and status reports *)

Module RetryPolicy.

(** The dictionary [retry_mappings] of [_determine_retry_phase], in the order
    its items are visited. *)
Definition retry_mappings : list (string * string) :=
  [("testing", "development"); ("retesting", "bug_fixing");
   ("qa", "development"); ("verification", "development")].

(** [for keyword, target_phase in retry_mappings.items():
       if keyword in current_phase.lower(): return target_phase] *)
Fixpoint first_mapping (mappings : list (string * string)) (lowered : string)
    : option string :=
  match mappings with
  | [] => None
  | (keyword, target_phase) :: rest =>
      if PyStr.contains keyword lowered then Some target_phase
      else first_mapping rest lowered
  end.

(** [_determine_retry_phase]; the argument [reason] is not used by the code. *)
Definition _determine_retry_phase (current_phase reason : string)
    : option string :=
  match first_mapping retry_mappings (PyStr.lower current_phase) with
  | Some target_phase => Some target_phase
  | None =>
      if PyStr.contains "test" (PyStr.lower current_phase)
      then Some "development" else None
  end.

End RetryPolicy.

(** The numbers of [get_retry_status]. *)
Record RetryStatus : Type := mkRetryStatus {
  total_phases : nat;
  phases_with_retries : nat;
  total_retry_attempts : nat
}.

(** The counts of [get_workflow_status]. *)
Record WorkflowCounts : Type := mkWorkflowCounts {
  completed_phases : nat;
  failed_phases : nat
}.

(** The order of [sorted] on strings. *)
Definition str_le (a b : string) : Prop := String.leb a b = true.

#[global] Instance str_le_dec (a b : string) : Decision (str_le a b).
Proof. unfold str_le. apply _. Defined.

(** [sorted(l)] for a list of strings. *)
Definition sorted (l : list string) : list string := merge_sort str_le l.

Section Reports.

Context {World : Type}.

(** [_can_retry_phase]: [tracker and tracker.can_retry()], as a truth value
    (the code returns [None] when the phase has no tracker). *)
Definition _can_retry_phase (phase_name : string) (st : Orchestrator World)
    : bool :=
  match retry_trackers st !! phase_name with
  | None => false
  | Some tracker => can_retry tracker
  end.

(** [get_retry_status]: the three counters; the per-phase details repeat the
    trackers. *)
Definition get_retry_status (st : Orchestrator World) : RetryStatus :=
  map_fold
    (fun _ tracker status =>
       if Nat.ltb 0 (tracker_retry_count tracker) then
         {| total_phases := total_phases status;
            phases_with_retries := phases_with_retries status + 1;
            total_retry_attempts :=
              total_retry_attempts status + tracker_retry_count tracker |}
       else status)
    {| total_phases := size (retry_trackers st);
       phases_with_retries := 0; total_retry_attempts := 0 |}
    (retry_trackers st).

(** The two counts of [get_workflow_status]:
    [len([r for r in self.results.values() if r.success])] and
    [len([r for r in self.results.values() if not r.success])]. *)
Definition get_workflow_counts (st : Orchestrator World) : WorkflowCounts :=
  let values := map snd (map_to_list (results st)) in
  {| completed_phases := length (List.filter success values);
     failed_phases := length (List.filter (fun r => negb (success r)) values) |}.

(** [get_workflow_status], its entries [completed_phases] and
    [failed_phases]; [None] is the dictionary [{"error": "No template
    loaded"}] that is returned when no template is loaded. *)
Definition get_workflow_status (st : Orchestrator World) : option WorkflowCounts :=
  match project_template st with
  | None => None
  | Some _ => Some (get_workflow_counts st)
  end.

(** [get_project_artifacts]: [sorted(list(set(all_artifacts)))]. *)
Definition get_project_artifacts (st : Orchestrator World) : list string :=
  let all_artifacts :=
    flat_map (fun kr => artifacts (snd kr)) (map_to_list (results st)) in
  sorted (elements (list_to_set all_artifacts : gset string)).

(** Every stored result is successful. *)
Definition all_successful (st : Orchestrator World) : Prop :=
  forall q r, results st !! q = Some r -> success r = true.

End Reports.

(* ------------------------------------------------------------------------ *)
(** ** Vocabulary for the statements about tasks *)

(** [b] is the task [a] with some of its context files dropped. *)
Definition narrowed (a b : AgentTask) : Prop :=
  exists files,
    sublist files (task_context_files a) /\
    b = {| task_role := task_role a; task_prompt := task_prompt a;
           task_id := task_id a; task_dependencies := task_dependencies a;
           task_output_file := task_output_file a;
           task_context_files := files |}.

(* ------------------------------------------------------------------------ *)
(** ** Slices and path names *)

Module PySlice.

(** [s[:n]]. *)
Fixpoint take (n : nat) (s : string) : string :=
  match n, s with
  | 0, _ => EmptyString
  | S _, EmptyString => EmptyString
  | S n', String c s' => String c (take n' s')
  end.

(** [s[n:]]. *)
Fixpoint drop (n : nat) (s : string) : string :=
  match n, s with
  | 0, _ => s
  | S _, EmptyString => EmptyString
  | S n', String _ s' => drop n' s'
  end.

(** [s.rfind('.')]; [None] is -1. *)
Fixpoint rfind_dot (s : string) : option nat :=
  match s with
  | EmptyString => None
  | String c s' =>
      match rfind_dot s' with
      | Some i => Some (S i)
      | None => if Ascii.eqb c "." then Some 0 else None
      end
  end.

(** [PurePath.name] of a path written with "/": its last component. *)
Fixpoint basename (s : string) : string :=
  match s with
  | EmptyString => EmptyString
  | String c s' =>
      if PyStr.contains "/" s' then basename s'
      else if Ascii.eqb c "/" then s' else s
  end.

(** [PurePath.suffix]: [name[i:]] for [i = name.rfind('.')] when
    [0 < i < len(name) - 1], and the empty string otherwise. *)
Definition suffix (path : string) : string :=
  let name := basename path in
  match rfind_dot name with
  | Some i =>
      if Nat.ltb 0 i && Nat.ltb i (String.length name - 1) then drop i name
      else EmptyString
  | None => EmptyString
  end.

(** [x in l] for a list of strings. *)
Definition str_in (x : string) (l : list string) : bool :=
  existsb (String.eqb x) l.

End PySlice.

(* ------------------------------------------------------------------------ *)
(** ** config.py and core/agent.py: context files and artifacts *)

Module AgentFiles.

Definition ARTIFACT_EXTENSIONS : list string :=
  [".md"; ".py"; ".json"; ".yaml"; ".yml"; ".txt"; ".js"; ".css"; ".html";
   ".tsx"; ".ts"].

Definition IGNORE_PATTERNS : list string :=
  [".git"; "__pycache__"; ".vscode"; ".idea"; "node_modules"; ".env"].

(** The test of [_detect_created_files] on one relative path. *)
Definition is_artifact (relative_path_str : string) : bool :=
  negb (PyStr.any_in IGNORE_PATTERNS relative_path_str)
  && PySlice.str_in (PySlice.suffix relative_path_str) ARTIFACT_EXTENSIONS.

(** [_detect_created_files]; [listing] holds the relative paths of the
    regular files that [working_dir.rglob('*')] yields, up to the exception
    that ends the walk if there is one. *)
Definition _detect_created_files (listing : list string) : list string :=
  sorted (List.filter is_artifact listing).

Definition max_file_size : nat := 5000.
Definition max_total_size : nat := 20000.

Definition newline : string := String (ascii_of_nat 10) EmptyString.

(** The text appended to a cut content: a line feed and "... (truncated)". *)
Definition truncated : string := newline +:+ "... (truncated)".

(** The content of one file as [_load_context_files] adds it when
    [total_size] characters were added before. *)
Definition clipped (total_size : nat) (content : string) : string :=
  let content :=
    if Nat.ltb max_file_size (String.length content)
    then PySlice.take max_file_size content +:+ truncated else content in
  let remaining_size := max_total_size - total_size in
  if Nat.ltb remaining_size (String.length content)
  then PySlice.take remaining_size content +:+ truncated else content.

Section Loading.

Context `{WorldOps World}.

(** The loop of [_load_context_files], from the values its three variables
    have: [context_content], [available_files] and [total_size]. *)
Fixpoint load_loop (w : World) (context_files : list string)
    (context_content : string) (available_files : list string)
    (total_size : nat) : string * list string * nat :=
  match context_files with
  | [] => (context_content, available_files, total_size)
  | file_path :: rest =>
      if Nat.leb max_total_size total_size
      then (context_content, available_files, total_size)
      else if path_exists w file_path then
        match read_text w file_path with
        | Some content =>
            let content := clipped total_size content in
            load_loop w rest
              (context_content +:+ newline +:+ "=== " +:+ file_path +:+ " ==="
                 +:+ newline +:+ content +:+ newline)
              (available_files ++ [file_path])
              (total_size + String.length content)
        | None => load_loop w rest context_content available_files total_size
        end
      else load_loop w rest context_content available_files total_size
  end.

(** [_load_context_files]. *)
Definition _load_context_files (w : World) (context_files : list string)
    : string * list string :=
  let '(context_content, available_files, _) :=
    load_loop w context_files EmptyString [] 0 in
  (context_content, available_files).

End Loading.

End AgentFiles.

(* ------------------------------------------------------------------------ *)
(** ** core/template_loader.py: complexity and timeout *)

Module Complexity.

Definition complex_techs : list string :=
  ["docker"; "kubernetes"; "sqlalchemy"; "redis"; "celery"; "postgresql"].

(** [calculate_complexity_score]; [technology_stack] is the field of that
    name of the template. *)
Definition calculate_complexity_score (technology_stack : list string)
    (t : ProjectTemplate) : nat :=
  let score := length technology_stack * 10 in
  let score := score + length (workflow_phases t) * 20 in
  let score :=
    map_fold (fun _ task acc => acc + length (info_output_files task) * 5)
             score (tasks t) in
  let score :=
    map_fold (fun _ task acc => acc + length (info_context_files task) * 3)
             score (tasks t) in
  foldl (fun acc tech =>
           if PyStr.any_in complex_techs (PyStr.lower tech) then acc + 30 else acc)
        score technology_stack.

(** The branches of [calculate_timeout] on the complexity. *)
Definition timeout_for (complexity base_timeout : nat) : nat :=
  if Nat.leb complexity 50 then base_timeout
  else if Nat.leb complexity 100 then base_timeout * 2
  else if Nat.leb complexity 200 then base_timeout * 3
  else base_timeout * 6.

(** [calculate_timeout]. *)
Definition calculate_timeout (technology_stack : list string)
    (t : ProjectTemplate) (base_timeout : nat) : nat :=
  timeout_for (calculate_complexity_score technology_stack t) base_timeout.

End Complexity.

(* ------------------------------------------------------------------------ *)
(** ** core/template_loader.py: [TemplateValidator] *)

Module Validator.

(** The two messages of [validate_workflow_dependencies]:
    [f"Phase '{phase_name}' has no corresponding task definition"] and
    [f"Circular dependency detected involving phase: {phase_name}"]. *)
Inductive ValidationError : Type :=
| NoTaskDefinition (phase_name : string)
| CircularDependency (phase_name : string).

(** [dependency_graph[phase_name] = dependencies] for every phase in turn:
    a later phase of the same name replaces the dependencies. *)
Definition dependency_graph (t : ProjectTemplate) : gmap string (list string) :=
  foldl (fun graph phase_info =>
           <[phase phase_info := dependencies phase_info]> graph)
        ∅ (workflow_phases t).

(** [_has_circular_dependency].  The recursion follows dependencies through
    ever larger [visited] sets; [fuel] bounds its depth and [None] means the
    bound was reached. *)
Fixpoint _has_circular_dependency (fuel : nat) (graph : gmap string (list string))
    (node : string) (visited : gset string) : option bool :=
  match fuel with
  | 0 => None
  | S fuel' =>
      if decide (node ∈ visited) then Some true
      else
        let visited := {[node]} ∪ visited in
        (fix each (deps : list string) : option bool :=
           match deps with
           | [] => Some false
           | dependency :: rest =>
               match graph !! dependency with
               | None => each rest
               | Some _ =>
                   match _has_circular_dependency fuel' graph dependency visited with
                   | Some true => Some true
                   | Some false => each rest
                   | None => None
                   end
               end
           end) (default [] (graph !! node))
  end.

(** The loop of [_has_circular_dependency] over the dependencies of a node,
    [search] being the recursive call. *)
Definition each_dependency (search : string -> option bool)
    (graph : gmap string (list string)) : list string -> option bool :=
  fix each (deps : list string) : option bool :=
    match deps with
    | [] => Some false
    | dependency :: rest =>
        match graph !! dependency with
        | None => each rest
        | Some _ =>
            match search dependency with
            | Some true => Some true
            | Some false => each rest
            | None => None
            end
        end
    end.

(** [l] has no repetition and avoids [visited]. *)
Definition fresh_chain (visited : gset string) (l : list string) : Prop :=
  NoDup l /\ forall x, In x l -> x ∉ visited.

(** [for phase_name in dependency_graph: if self._has_circular_dependency(
    dependency_graph, phase_name, set()): errors.append(...)]. *)
Fixpoint cycle_errors (fuel : nat) (graph : gmap string (list string))
    (names : list string) : option (list ValidationError) :=
  match names with
  | [] => Some []
  | phase_name :: rest =>
      match _has_circular_dependency fuel graph phase_name ∅,
            cycle_errors fuel graph rest with
      | Some true, Some errors => Some (CircularDependency phase_name :: errors)
      | Some false, Some errors => Some errors
      | _, _ => None
      end
  end.

(** The keys of a dictionary filled from [l], in the order of their first
    insertion. *)
Fixpoint first_occurrences (seen : gset string) (l : list string) : list string :=
  match l with
  | [] => []
  | x :: l' =>
      if decide (x ∈ seen) then first_occurrences seen l'
      else x :: first_occurrences ({[x]} ∪ seen) l'
  end.

(** [validate_workflow_dependencies], with fuel for the cycle search. *)
Definition validate_workflow_dependencies_fuel (fuel : nat) (t : ProjectTemplate)
    : option (list ValidationError) :=
  let names := map phase (workflow_phases t) in
  let errors :=
    map NoTaskDefinition
      (List.filter (fun p => match tasks t !! p with Some _ => false | None => true end)
         names) in
  match cycle_errors fuel (dependency_graph t) (first_occurrences ∅ names) with
  | Some cycles => Some (errors ++ cycles)%list
  | None => None
  end.

(** [validate_workflow_dependencies]: one more level of recursion than the
    graph has nodes is enough for the search to return. *)
Definition validate_workflow_dependencies (t : ProjectTemplate)
    : option (list ValidationError) :=
  validate_workflow_dependencies_fuel (S (size (dependency_graph t))) t.

(** [b] is a dependency of [a] that the search follows. *)
Definition edge (graph : gmap string (list string)) (a b : string) : Prop :=
  exists deps, graph !! a = Some deps /\ In b deps /\ is_Some (graph !! b).

(** A chain of dependencies, each one followed by the search. *)
Fixpoint chain (graph : gmap string (list string)) (l : list string) : Prop :=
  match l with
  | [] => True
  | a :: l' =>
      match l' with
      | [] => True
      | b :: _ => edge graph a b /\ chain graph l'
      end
  end.

End Validator.

(* ======================================================================== *)
(** * Properties *)

Local Open Scope list_scope.

(** ** Strings *)

Module PyStrFacts.
Import PyStr.

Lemma startswith_lower (k s : string) :
  startswith k s = true -> startswith (lower k) (lower s) = true.
Proof.
  revert s; induction k as [|a k IH]; intros [|b s]; simpl; try done.
  destruct (Ascii.eqb a b) eqn:E; [|done].
  apply Ascii.eqb_eq in E as ->.
  rewrite Ascii.eqb_refl. apply IH.
Qed.

Lemma contains_lower (k s : string) :
  contains k s = true -> contains (lower k) (lower s) = true.
Proof.
  induction s as [|c s IH]; simpl.
  - rewrite !orb_false_r. apply (startswith_lower k "").
  - intros [Hs|Hc]%orb_true_iff; apply orb_true_iff.
    + left. apply (startswith_lower k (String c s) Hs).
    + right. auto.
Qed.

(** A lower-case word found in a text is found in the lowered text. *)
Lemma contains_error_lower (s : string) :
  contains "error" s = true -> contains "error" (lower s) = true.
Proof. apply (contains_lower "error"). Qed.

Lemma any_in_cons (k : string) (ks : list string) (s : string) :
  any_in (k :: ks) s = contains k s || any_in ks s.
Proof. reflexivity. Qed.

End PyStrFacts.

(** ** The block planner *)

Module BlockPlannerFacts.
Import BlockPlanner.

Lemma in_select (ks all : list string) (p : string) :
  In p (select ks all) <-> In p all /\ PyStr.any_in ks (PyStr.lower p) = true.
Proof.
  unfold select.
  exact (filter_In (fun p => PyStr.any_in ks (PyStr.lower p)) p all).
Qed.

Lemma in_add_block (n : string) (l : list string)
    (bl : list (string * list string)) (x : string * list string) :
  In x (add_block n l bl) <-> In x bl \/ (x = (n, l) /\ l <> []).
Proof.
  unfold add_block. destruct l as [|a l].
  - split; [by left | intros [?|[_ ?]]; done].
  - rewrite in_app_iff. simpl. split.
    + intros [?|[<-|[]]]; [by left | by right].
    + intros [?|[-> _]]; [by left | right; by left].
Qed.

Lemma covered_spec (bl : list (string * list string)) (p : string) :
  p ∈ covered bl <-> exists b phases, In (b, phases) bl /\ In p phases.
Proof.
  induction bl as [|[b phases] bl IH]; simpl.
  - split; [set_solver | intros (? & ? & [] & _)].
  - rewrite elem_of_union, elem_of_list_to_set, list_elem_of_In, IH. split.
    + intros [Hp|(b' & phases' & Hin & Hp)].
      * exists b, phases. split; [by left | done].
      * exists b', phases'. split; [by right | done].
    + intros (b' & phases' & [[= <- <-]|Hin] & Hp); [by left|].
      right. by exists b', phases'.
Qed.

Lemma in_uncovered (order : SetOrder) (all : list string)
    (bl : list (string * list string)) (p : string) :
  In p (uncovered order all bl) <-> In p all /\ p ∉ covered bl.
Proof.
  unfold uncovered.
  rewrite <- list_elem_of_In, (listing_perm order), elem_of_elements,
    elem_of_difference, elem_of_list_to_set, list_elem_of_In.
  done.
Qed.

Lemma uncovered_NoDup (order : SetOrder) (all : list string)
    (bl : list (string * list string)) :
  NoDup (uncovered order all bl).
Proof. unfold uncovered. rewrite (listing_perm order). apply NoDup_elements. Qed.

Lemma define_workflow_blocks_eq (order : SetOrder) (t : ProjectTemplate) :
  _define_workflow_blocks order t =
  add_block "misc"
    (uncovered order (all_phase_names t) (keyword_blocks (all_phase_names t)))
    (keyword_blocks (all_phase_names t)).
Proof. reflexivity. Qed.

Lemma in_keyword_blocks (all : list string) (b : string) (phases : list string) :
  In (b, phases) (keyword_blocks all) <->
  phases <> [] /\
  ((b = "planning_no_retry" /\ phases = select planning_keywords all) \/
   (b = "design" /\ phases = select design_keywords all) \/
   (b = "development_testing" /\ phases = select dev_test_keywords all) \/
   (b = "security" /\ phases = select security_keywords all)).
Proof.
  unfold keyword_blocks. rewrite !in_add_block. simpl. split.
  - intros [[[[[]|[[= -> ->] ?]]|[[= -> ->] ?]]|[[= -> ->] ?]]|[[= -> ->] ?]];
      (split; [done|]); tauto.
  - intros [Hne [[-> ->]|[[-> ->]|[[-> ->]|[-> ->]]]]]; tauto.
Qed.

Lemma keyword_block_member (all : list string) (b : string) (phases : list string)
    (p : string) :
  In (b, phases) (keyword_blocks all) ->
  In p phases <-> In p all /\ member_of b p = true.
Proof.
  intros [_ [[-> ->]|[[-> ->]|[[-> ->]|[-> ->]]]]]%in_keyword_blocks;
    apply in_select.
Qed.

Lemma keyword_block_not_misc (all : list string) (phases : list string) :
  ~ In ("misc", phases) (keyword_blocks all).
Proof.
  intros [_ [[? _]|[[? _]|[[? _]|[? _]]]]]%in_keyword_blocks; discriminate.
Qed.

Lemma select_block_present (all ks : list string) (b p : string) :
  In p (select ks all) ->
  (b = "planning_no_retry" /\ ks = planning_keywords) \/
  (b = "design" /\ ks = design_keywords) \/
  (b = "development_testing" /\ ks = dev_test_keywords) \/
  (b = "security" /\ ks = security_keywords) ->
  In (b, select ks all) (keyword_blocks all).
Proof.
  intros Hp Hb. apply in_keyword_blocks. split.
  - intros Hnil. by rewrite Hnil in Hp.
  - destruct Hb as [[-> ->]|[[-> ->]|[[-> ->]|[-> ->]]]]; tauto.
Qed.

Lemma covered_keyword_blocks (all : list string) (p : string) :
  p ∈ covered (keyword_blocks all) <-> In p all /\ matches_any p = true.
Proof.
  rewrite covered_spec. unfold matches_any. cbv zeta.
  rewrite !orb_true_iff. split.
  - intros (b & phases & Hin & Hp).
    apply in_keyword_blocks in Hin as [_ Hcase].
    destruct Hcase as [[-> ->]|[[-> ->]|[[-> ->]|[-> ->]]]];
      apply in_select in Hp as [Hall Hm]; tauto.
  - intros [Hall [[[Hm|Hm]|Hm]|Hm]].
    + exists "planning_no_retry", (select planning_keywords all).
      assert (Hp : In p (select planning_keywords all)) by by apply in_select.
      split; [|done]. apply (select_block_present all _ _ p Hp). tauto.
    + exists "design", (select design_keywords all).
      assert (Hp : In p (select design_keywords all)) by by apply in_select.
      split; [|done]. apply (select_block_present all _ _ p Hp). tauto.
    + exists "development_testing", (select dev_test_keywords all).
      assert (Hp : In p (select dev_test_keywords all)) by by apply in_select.
      split; [|done]. apply (select_block_present all _ _ p Hp). tauto.
    + exists "security", (select security_keywords all).
      assert (Hp : In p (select security_keywords all)) by by apply in_select.
      split; [|done]. apply (select_block_present all _ _ p Hp). tauto.
Qed.

Lemma in_misc (order : SetOrder) (all : list string) (p : string) :
  In p (uncovered order all (keyword_blocks all)) <->
  In p all /\ member_of "misc" p = true.
Proof.
  rewrite in_uncovered, covered_keyword_blocks.
  change (member_of "misc" p) with (negb (matches_any p)).
  unfold not. destruct (matches_any p); simpl; intuition congruence.
Qed.

Lemma block_member (order : SetOrder) (t : ProjectTemplate) (b : string)
    (phases : list string) (p : string) :
  In (b, phases) (_define_workflow_blocks order t) ->
  In p phases <-> In p (all_phase_names t) /\ member_of b p = true.
Proof.
  rewrite define_workflow_blocks_eq, in_add_block.
  intros [Hin|[[= -> ->] _]].
  - by apply keyword_block_member.
  - apply in_misc.
Qed.

Lemma member_block (order : SetOrder) (t : ProjectTemplate) (b p : string) :
  In p (all_phase_names t) -> member_of b p = true ->
  exists phases, In (b, phases) (_define_workflow_blocks order t) /\ In p phases.
Proof.
  intros Hall. rewrite define_workflow_blocks_eq.
  set (all := all_phase_names t) in *.
  assert (Hkw : forall ks,
             PyStr.any_in ks (PyStr.lower p) = true ->
             (b = "planning_no_retry" /\ ks = planning_keywords) \/
             (b = "design" /\ ks = design_keywords) \/
             (b = "development_testing" /\ ks = dev_test_keywords) \/
             (b = "security" /\ ks = security_keywords) ->
             exists phases,
               In (b, phases)
                  (add_block "misc" (uncovered order all (keyword_blocks all))
                     (keyword_blocks all)) /\ In p phases).
  { intros ks Hm Hb. exists (select ks all).
    assert (Hp : In p (select ks all)) by by apply in_select.
    split; [|done]. apply in_add_block. left.
    by apply (select_block_present all ks b p). }
  unfold member_of. cbv zeta.
  destruct (String.eqb_spec b "planning_no_retry") as [->|_].
  { intros Hm. apply (Hkw _ Hm). tauto. }
  destruct (String.eqb_spec b "design") as [->|_].
  { intros Hm. apply (Hkw _ Hm). tauto. }
  destruct (String.eqb_spec b "development_testing") as [->|_].
  { intros Hm. apply (Hkw _ Hm). tauto. }
  destruct (String.eqb_spec b "security") as [->|_].
  { intros Hm. apply (Hkw _ Hm). tauto. }
  destruct (String.eqb_spec b "misc") as [->|_]; [|done].
  intros Hm. exists (uncovered order all (keyword_blocks all)).
  assert (Hp : In p (uncovered order all (keyword_blocks all))).
  { apply in_misc. by split. }
  split; [|done]. apply in_add_block. right. split; [done|].
  intros Hnil. by rewrite Hnil in Hp.
Qed.

Lemma member_of_first_match (p : string) : member_of (first_match p) p = true.
Proof.
  unfold first_match, member_of, matches_any. cbv zeta.
  destruct (PyStr.any_in planning_keywords _) eqn:H1; [done|].
  destruct (PyStr.any_in design_keywords _) eqn:H2; [done|].
  destruct (PyStr.any_in dev_test_keywords _) eqn:H3; [done|].
  destruct (PyStr.any_in security_keywords _) eqn:H4; [done|].
  reflexivity.
Qed.

Lemma first_match_block (order : SetOrder) (t : ProjectTemplate) (p : string) :
  In p (all_phase_names t) ->
  exists phases,
    In (first_match p, phases) (_define_workflow_blocks order t) /\ In p phases.
Proof.
  intros Hall. apply member_block; [done|]. apply member_of_first_match.
Qed.

Lemma block_names (order : SetOrder) (t : ProjectTemplate) :
  sublist (map fst (_define_workflow_blocks order t))
    ["planning_no_retry"; "design"; "development_testing"; "security"; "misc"].
Proof.
  unfold _define_workflow_blocks. cbv zeta.
  match goal with
  | |- context [uncovered ?o ?a ?bl] => generalize (uncovered o a bl)
  end.
  intros misc.
  destruct (select planning_keywords _), (select design_keywords _),
    (select dev_test_keywords _), (select security_keywords _), misc;
    simpl; repeat constructor.
Qed.

Lemma block_shape (order : SetOrder) (t : ProjectTemplate) (b : string)
    (phases : list string) :
  In (b, phases) (_define_workflow_blocks order t) ->
  phases <> [] /\
  (b <> "misc" -> phases = List.filter (member_of b) (all_phase_names t)) /\
  (b = "misc" -> NoDup phases).
Proof.
  rewrite define_workflow_blocks_eq, in_add_block.
  intros [Hin|[[= -> ->] Hne]].
  - pose proof (keyword_block_not_misc (all_phase_names t) phases) as Hnot.
    apply in_keyword_blocks in Hin as Hcase. destruct Hcase as [Hne Hcase].
    split; [done|]. split.
    + intros _.
      destruct Hcase as [[-> ->]|[[-> ->]|[[-> ->]|[-> ->]]]]; reflexivity.
    + intros ->. done.
  - split; [done|]. split; [done|]. intros _. apply uncovered_NoDup.
Qed.

(** C4, amended.  The blocks are named once each, in the precedence order,
    and none is empty.  A phase is in the block of a name exactly when it is
    a phase of the workflow and passes the membership test of that name: so
    it is in the block of every keyword category it matches, among them the
    first in the precedence order, each such block listing its phases in the
    order of the workflow; the phases matching no category make the block
    misc, listed once each in an order the process chooses, and misc shares
    no phase with the keyword blocks. *)
Theorem blocks_cover_phases (order : SetOrder) (t : ProjectTemplate) :
  let blocks := _define_workflow_blocks order t in
  let all := all_phase_names t in
  (forall p, In p all <-> exists b phases, In (b, phases) blocks /\ In p phases) /\
  (forall b phases p,
      In (b, phases) blocks -> In p phases <-> In p all /\ member_of b p = true) /\
  (forall p, In p all ->
      exists phases, In (first_match p, phases) blocks /\ In p phases) /\
  (forall b phases misc p,
      In (b, phases) blocks -> In ("misc", misc) blocks -> b <> "misc" ->
      In p phases -> ~ In p misc) /\
  (forall b p, In p all -> member_of b p = true ->
      exists phases, In (b, phases) blocks /\ In p phases) /\
  sublist (map fst blocks)
    ["planning_no_retry"; "design"; "development_testing"; "security"; "misc"] /\
  (forall b phases, In (b, phases) blocks ->
      phases <> [] /\
      (b <> "misc" -> phases = List.filter (member_of b) all) /\
      (b = "misc" -> NoDup phases)).
Proof.
  intros blocks all. split; [|split; [|split; [|split; [|split; [|split]]]]].
  - intros p. split.
    + intros Hp. destruct (first_match_block order t p Hp) as (phases & Hin & Hp').
      by exists (first_match p), phases.
    + intros (b & phases & Hin & Hp). by apply (block_member order t b phases p Hin).
  - intros b phases p Hin. by apply (block_member order).
  - intros p. by apply first_match_block.
  - intros b phases misc p Hb Hmisc Hne Hp Hpm.
    apply (block_member order t _ _ p Hmisc) in Hpm as [_ Hnone].
    change (member_of "misc" p) with (negb (matches_any p)) in Hnone.
    apply negb_true_iff in Hnone.
    unfold blocks in Hb. rewrite define_workflow_blocks_eq, in_add_block in Hb.
    destruct Hb as [Hb|[[= -> _] _]]; [|done].
    assert (Hcov : p ∈ covered (keyword_blocks (all_phase_names t))).
    { apply covered_spec. by exists b, phases. }
    apply covered_keyword_blocks in Hcov as [_ Hany]. congruence.
  - intros b p. by apply member_block.
  - apply block_names.
  - intros b phases. by apply block_shape.
Qed.

End BlockPlannerFacts.

Section Properties.

Context `{WorldOps World}.

Implicit Types (st : Orchestrator World) (t : ProjectTemplate).

(** ** The executor capability *)

(** C10.  A result returned by [execute_task] with [success] true carries no
    error; one with [success] false carries an error string, the empty
    output and no artifact. *)
Theorem execute_task_result_shape (agent_role : AgentRole) (task : AgentTask)
    (w : World) :
  let r := fst (execute_task agent_role task w) in
  if success r
  then errors r = None
  else (exists msg, errors r = Some msg) /\ output r = "" /\ artifacts r = [].
Proof.
  unfold execute_task.
  destruct (agent_try_body agent_role _ w) as [[msg|[out arts]] w']; simpl.
  - split; [by exists msg | done].
  - reflexivity.
Qed.

(** ** The dependency gate *)

Lemma check_dependencies_eq (deps : list string) st :
  _check_dependencies deps st = (Return (deps_satisfied deps (results st)), st).
Proof.
  induction deps as [|d deps IH]; simpl; [done|].
  unfold bind, gets; simpl.
  destruct (results st !! d) as [r|]; [|done].
  destruct (success r); simpl; [apply IH | done].
Qed.

Lemma deps_satisfied_iff (deps : list string) (res : gmap string AgentResult) :
  deps_satisfied deps res = true <->
  forall d, In d deps -> exists r, res !! d = Some r /\ success r = true.
Proof.
  unfold deps_satisfied. rewrite forallb_forall. split; intros Hd d Hin.
  - specialize (Hd d Hin). destruct (res !! d) as [r|]; [by exists r | done].
  - destruct (Hd d Hin) as (r & -> & Hr). done.
Qed.

(** C7.  The dependency gate answers true exactly when every named
    dependency is a key of the result map with a successful result; it
    answers true on the empty list whatever the map holds; and it returns
    the orchestrator state it was given. *)
Theorem check_dependencies_spec :
  (forall (deps : list string) st,
      exists b : bool,
        _check_dependencies deps st = (Return b, st) /\
        (b = true <->
         forall d, In d deps ->
           exists r, results st !! d = Some r /\ success r = true)) /\
  (forall st, _check_dependencies [] st = (Return true, st)).
Proof.
  split.
  - intros deps st. exists (deps_satisfied deps (results st)).
    split; [apply check_dependencies_eq | apply deps_satisfied_iff].
  - reflexivity.
Qed.

(** ** Phase execution and the evaluator *)

Lemma testing_phase_of_test (phase_name : string) :
  PyStr.contains "test" (PyStr.lower phase_name) = true ->
  _is_testing_phase phase_name = true.
Proof.
  intros Ht. unfold _is_testing_phase.
  rewrite PyStrFacts.any_in_cons, Ht. reflexivity.
Qed.

Lemma analyze_lists_error (w : World) (result : AgentResult) :
  PyStr.contains "error" (output result) = true ->
  In "errors found in testing" (_analyze_test_results w result).
Proof.
  intros Herr%PyStrFacts.contains_error_lower.
  unfold _analyze_test_results, bug_indicators. cbn [flat_map].
  rewrite Herr. apply in_or_app. left.
  destruct (PyStr.contains "failed" _); simpl; tauto.
Qed.

(** C9.  [_execute_phase] of a phase whose lowered name contains "test"
    stores the result the agent returned for the task, with its success
    flag, output, artifacts and errors; when the output contains "error" the
    stored result has [requires_retry] set, whether it reports success or
    failure: on success by the bug scan, which lists "errors found in
    testing" and whose findings make the retry reason, on failure by the
    explicit-failure check, which sets the flag whatever the output. *)
Theorem testing_phase_error_requires_retry (phase_name : string) (i : nat)
    (task : AgentTask) st :
  PyStr.contains "test" (PyStr.lower phase_name) = true ->
  let offered :=
    {| task_role := task_role task; task_prompt := task_prompt task;
       task_id := task_id task; task_dependencies := task_dependencies task;
       task_output_file := task_output_file task;
       task_context_files :=
         _get_available_context_files (world st) (task_context_files task) |} in
  let run := execute_task (task_role task) offered (world st) in
  exists r,
    results (snd (_execute_phase phase_name i task st)) !! phase_name = Some r /\
    success r = success (fst run) /\ output r = output (fst run) /\
    artifacts r = artifacts (fst run) /\ errors r = errors (fst run) /\
    (PyStr.contains "error" (output r) = true -> requires_retry r = true) /\
    (success (fst run) = true ->
     PyStr.contains "error" (output (fst run)) = true ->
     In "errors found in testing" (_analyze_test_results (snd run) (fst run)) /\
     retry_reason r =
       Some ("Bugs found during testing: "
             +:+ String.concat ", " (_analyze_test_results (snd run) (fst run)))) /\
    (success (fst run) = false ->
     requires_retry r = true /\
     retry_reason r =
       Some ("Phase execution failed: " +:+ str_of_optional (errors (fst run)))).
Proof.
  intros Htest%testing_phase_of_test. cbv zeta.
  unfold _execute_phase, bind, log, gets, modify. simpl.
  destruct (execute_task _ _ _) as [result w'] eqn:Hexec. simpl.
  destruct (success result) eqn:Hs; simpl.
  - rewrite Htest.
    destruct (_analyze_test_results w' result) as [|bug bugs] eqn:Hbugs; simpl.
    + exists result. rewrite lookup_insert_eq.
      assert (Hnone : PyStr.contains "error" (output result) = true -> False).
      { intros Herr. apply (analyze_lists_error w') in Herr.
        rewrite Hbugs in Herr. destruct Herr. }
      split; [done|]. split; [done|]. split; [done|]. split; [done|].
      split; [done|]. split; [by intros Herr; destruct (Hnone Herr)|].
      split; [by intros _ Herr; destruct (Hnone Herr) | done].
    + eexists. rewrite lookup_insert_eq.
      split; [done|]. split; [done|]. split; [done|]. split; [done|].
      split; [done|]. split; [done|]. split; [|done].
      intros _ Herr. split; [|done].
      apply (analyze_lists_error w') in Herr. rewrite Hbugs in Herr. exact Herr.
  - eexists. rewrite lookup_insert_eq.
    split; [done|]. split; [done|]. split; [done|]. split; [done|].
    split; [done|]. split; [done|]. split; [done|]. done.
Qed.

(** What [_execute_phase] does to the state: it stores one result under the
    phase name, logs that the phase is executing, and leaves the other
    results, the trackers and the template alone. *)
Lemma execute_phase_spec (phase_name : string) (i : nat) (task : AgentTask) st :
  exists r evs st',
    _execute_phase phase_name i task st = (Return tt, st') /\
    results st' = <[phase_name := r]> (results st) /\
    emitted st st' (EvExecuting phase_name :: evs) /\
    (forall q, ~ In (EvExecuting q) evs) /\
    retry_trackers st' = retry_trackers st /\
    project_template st' = project_template st.
Proof.
  unfold _execute_phase, bind, log, gets, modify, emitted. simpl.
  destruct (execute_task _ _ _) as [result w'] eqn:Hexec. simpl.
  assert (Hsilent : forall q, ~ In (EvExecuting q) []) by (intros q []).
  assert (Hone : forall e, (forall q, e <> EvExecuting q) ->
                           forall q, ~ In (EvExecuting q) [e]).
  { intros e He q [Hq|[]]. by apply (He q). }
  destruct (success result) eqn:Hs; simpl.
  - destruct (_is_testing_phase phase_name).
    + destruct (_analyze_test_results w' result) as [|bug bugs]; simpl.
      * eexists result, [], _. split; [done|]. by repeat split.
      * eexists _, [_], _. split; [done|]. simpl.
        rewrite insert_insert_eq, <- !app_assoc. repeat split; try done.
        by apply Hone.
    + match goal with |- context [if ?c then _ else _] => destruct c end; simpl.
      * destruct (_validate_development_result w'); simpl.
        -- eexists result, [], _. split; [done|]. by repeat split.
        -- eexists _, [_], _. split; [done|]. simpl.
           rewrite insert_insert_eq, <- !app_assoc. repeat split; try done.
           by apply Hone.
      * eexists result, [], _. split; [done|]. by repeat split.
  - eexists _, [_], _. split; [done|]. simpl.
    rewrite insert_insert_eq, <- !app_assoc. repeat split; try done.
    by apply Hone.
Qed.

(** ** One attempt of a block *)

(** The loop body of [run_phases], with the monad unfolded. *)
Lemma run_phases_cons t (b p : string) (rest : list string) st :
  run_phases t b (p :: rest) st =
  match _get_phase_info t p with
  | None => run_phases t b rest st
  | Some phase_info =>
      if deps_satisfied (dependencies phase_info) (results st) then
        match find_task_from 0 p (workflow_tasks st) with
        | Some (i, task) =>
            let st' := snd (_execute_phase p i task st) in
            match results st' !! p with
            | Some r =>
                if success r then run_phases t b rest st'
                else (Return (false, Some p), emit (EvBlockFailedAt b p) st')
            | None => (Return (false, Some p), emit (EvBlockFailedAt b p) st')
            end
        | None => (Return (false, Some p), emit (EvNoTask p) st)
        end
      else run_phases t b rest (emit (EvSkipUnmet p) st)
  end.
Proof.
  simpl. destruct (_get_phase_info t p) as [phase_info|]; [|done].
  unfold bind at 1. rewrite check_dependencies_eq.
  destruct (deps_satisfied _ _); simpl; [|done].
  unfold bind at 1. unfold _find_task_for_phase, gets.
  destruct (find_task_from 0 p (workflow_tasks st)) as [[i task]|]; [|done].
  unfold bind at 1.
  destruct (execute_phase_spec p i task st) as (r & evs & st' & -> & _).
  simpl. unfold bind at 1. simpl.
  destruct (results st' !! p) as [r'|]; [|done].
  by destruct (success r').
Qed.

Lemma attempt_facts_weaken t b (p : string) phases st st' ok fp st1 evs0 evs :
  emitted st st' evs0 ->
  (forall q, In (EvExecuting q) evs0 -> q = p) ->
  (forall q, results st' !! q = results st !! q \/ (q = p /\ In (EvExecuting p) evs0)) ->
  (In (EvExecuting p) evs0 -> exists r, results st' !! p = Some r /\ success r = true) ->
  retry_trackers st' = retry_trackers st ->
  project_template st' = project_template st ->
  attempt_facts t b phases st' ok fp st1 evs ->
  attempt_facts t b (p :: phases) st ok fp st1 (evs0 ++ evs).
Proof.
  intros Hem Honly Hfr Hgood Htr Htp [].
  split.
  - unfold emitted in *. rewrite af_emitted0, Hem. by rewrite app_assoc.
  - intros q. destruct (af_frame0 q) as [Hq|Hq].
    + destruct (Hfr q) as [Hq'|[-> Hq']].
      * left. congruence.
      * right. apply in_or_app. by left.
    + right. apply in_or_app. by right.
  - intros q [Hq|Hq]%in_app_or.
    + left. symmetry. by apply Honly.
    + right. by apply af_executed_in0.
  - intros q [Hq|Hq]%in_app_or Hne.
    + pose proof (Honly q Hq) as ->.
      destruct (af_frame0 p) as [Hsame|Hex]; [|by apply af_good0].
      rewrite Hsame. by apply Hgood.
    + by apply af_good0.
  - done.
  - intros Hok. destruct (af_failed0 Hok) as (p' & -> & Hin & Hcase).
    exists p'. split; [done|]. split; [by right|].
    destruct Hcase as [[Hnone Hev]|[Hev Hr]].
    + left. split; [done|]. apply in_or_app. by right.
    + right. split; [|done]. apply in_or_app. by right.
  - congruence.
  - congruence.
Qed.

Lemma run_phases_facts t (b : string) (phases : list string) st :
  exists ok fp st1 evs,
    run_phases t b phases st = (Return (ok, fp), st1) /\
    attempt_facts t b phases st ok fp st1 evs.
Proof.
  revert st. induction phases as [|p rest IH]; intros st.
  - exists true, None, st, []. split; [done|].
    split; try done.
    + unfold emitted. by rewrite app_nil_r.
    + by left.
  - rewrite run_phases_cons.
    destruct (_get_phase_info t p) as [phase_info|].
    2:{ destruct (IH st) as (ok & fp & st1 & evs & Hrun & Hf).
        exists ok, fp, st1, evs. split; [done|].
        apply (attempt_facts_weaken t b p rest st st ok fp st1 [] evs); try done.
        - unfold emitted. by rewrite app_nil_r.
        - by left. }
    destruct (deps_satisfied _ _).
    2:{ destruct (IH (emit (EvSkipUnmet p) st)) as (ok & fp & st1 & evs & Hrun & Hf).
        exists ok, fp, st1, ([EvSkipUnmet p] ++ evs). split; [done|].
        apply (attempt_facts_weaken t b p rest st (emit (EvSkipUnmet p) st)); try done.
        - intros q [Hq|[]]. discriminate.
        - by left.
        - intros [Hq|[]]. discriminate. }
    destruct (find_task_from 0 p (workflow_tasks st)) as [[i task]|] eqn:Hfind.
    2:{ exists false, (Some p), (emit (EvNoTask p) st), [EvNoTask p].
        split; [done|]. split; try done.
        - by left.
        - intros q [Hq|[]]. discriminate.
        - intros q [Hq|[]]. discriminate.
        - intros _. exists p. split; [done|]. split; [by left|].
          left. split; [done|]. by left. }
    destruct (execute_phase_spec p i task st)
      as (r & evs0 & st' & Hex & Hres & Hem & Hsilent & Htr & Htp).
    rewrite Hex. cbn [snd]. cbv zeta.
    rewrite Hres, lookup_insert_eq.
    destruct (success r) eqn:Hs.
    + destruct (IH st') as (ok & fp & st1 & evs & Hrun & Hf).
      exists ok, fp, st1, ((EvExecuting p :: evs0) ++ evs). split; [done|].
      apply (attempt_facts_weaken t b p rest st st'); try done.
      * intros q [Hq|Hq]; [congruence | by destruct (Hsilent q)].
      * intros q. rewrite Hres. destruct (decide (q = p)) as [->|Hne].
        -- right. split; [done|]. by left.
        -- left. by rewrite lookup_insert_ne.
      * intros _. exists r. by rewrite Hres, lookup_insert_eq.
    + exists false, (Some p), (emit (EvBlockFailedAt b p) st'),
        ((EvExecuting p :: evs0) ++ [EvBlockFailedAt b p]).
      split; [done|]. split; try done.
      * unfold emitted in *. simpl. rewrite Hem. by rewrite <- app_assoc.
      * intros q. simpl. rewrite Hres. destruct (decide (q = p)) as [->|Hne].
        -- right. by left.
        -- left. by rewrite lookup_insert_ne.
      * intros q [Hq|[Hq|Hq]%in_app_or]; [left; congruence | by destruct (Hsilent q) |].
        destruct Hq as [Hq|[]]. discriminate.
      * intros q [Hq|[Hq|Hq]%in_app_or] Hne.
        -- congruence.
        -- by destruct (Hsilent q).
        -- destruct Hq as [Hq|[]]. discriminate.
      * intros _. exists p. split; [done|]. split; [by left|].
        right. split; [by left|]. exists r. simpl. by rewrite Hres, lookup_insert_eq.
Qed.

Lemma run_phases_facts_of t (b : string) (phases : list string) st ok fp st1 :
  run_phases t b phases st = (Return (ok, fp), st1) ->
  exists evs, attempt_facts t b phases st ok fp st1 evs.
Proof.
  intros Hrun.
  destruct (run_phases_facts t b phases st) as (ok' & fp' & st1' & evs & Hrun' & Hf).
  rewrite Hrun in Hrun'. injection Hrun' as -> -> ->. by exists evs.
Qed.

Lemma run_phases_returns t (b : string) (phases : list string) st :
  is_raise (fst (run_phases t b phases st)) = false.
Proof.
  destruct (run_phases_facts t b phases st) as (ok & fp & st1 & evs & -> & _). done.
Qed.

Lemma block_loop_S t (b : string) (phases : list string) (remaining : nat) st :
  block_loop t b phases (S remaining) st =
  while_turn t b phases (effective_max_retries b - S remaining)
    (block_loop t b phases remaining) st.
Proof. reflexivity. Qed.

Lemma while_turn_failed t (b : string) (phases : list string) (retry_count : nat)
    (again : M World unit) st fp st1 :
  run_phases t b phases st = (Return (false, fp), st1) ->
  while_turn t b phases retry_count again st =
  on_block_failure b phases retry_count fp again st1.
Proof. intros Hrun. unfold while_turn, bind. by rewrite Hrun. Qed.

Lemma while_turn_succeeded t (b : string) (phases : list string) (retry_count : nat)
    (again : M World unit) st fp st1 :
  run_phases t b phases st = (Return (true, fp), st1) ->
  while_turn t b phases retry_count again st =
  (Return tt, emit (EvBlockCompleted b) st1).
Proof. intros Hrun. unfold while_turn, bind. by rewrite Hrun. Qed.


(** ** Clearing a block *)

Lemma clear_block_results_none (phases : list string)
    (res : gmap string AgentResult) (p : string) :
  res !! p = None -> clear_block_results phases res !! p = None.
Proof.
  revert res. induction phases as [|q phases IH]; intros res Hp; simpl; [done|].
  apply IH. destruct (decide (q = p)) as [->|Hne].
  - by rewrite lookup_delete_eq.
  - by rewrite lookup_delete_ne.
Qed.

Lemma clear_block_results_in (phases : list string)
    (res : gmap string AgentResult) (p : string) :
  In p phases -> clear_block_results phases res !! p = None.
Proof.
  revert res. induction phases as [|q phases IH]; intros res; simpl; [done|].
  intros [->|Hin].
  - apply clear_block_results_none. by rewrite lookup_delete_eq.
  - by apply IH.
Qed.

Lemma clear_block_results_notin (phases : list string)
    (res : gmap string AgentResult) (q : string) :
  ~ In q phases -> clear_block_results phases res !! q = res !! q.
Proof.
  revert res. induction phases as [|p phases IH]; intros res Hq; simpl; [done|].
  simpl in Hq. rewrite IH by tauto. apply lookup_delete_ne. tauto.
Qed.

Lemma on_block_failure_retry (b : string) (phases : list string) (retry_count : nat)
    (fp : option string) (again : M World unit) st1 :
  is_no_retry_block b = false ->
  retry_count + 1 < effective_max_retries b ->
  on_block_failure b phases retry_count fp again st1 =
  again (retry_state b phases retry_count fp st1).
Proof.
  intros Hno Hlt. unfold on_block_failure. rewrite Hno.
  destruct (Nat.ltb_spec (retry_count + 1) (effective_max_retries b)); [|lia].
  reflexivity.
Qed.

(** C1.  When an attempt of a retryable block fails and attempts remain, the
    loop goes on with a whole new turn over the block's phase list, from its
    first phase, in a state where every phase of the block has no result,
    every other entry of the result map is as the attempt left it, and the
    only events added are the retry notice and a sleep of 2 seconds. *)
Theorem retry_clears_block_and_restarts t (b : string) (phases : list string)
    (retry_count : nat) st fp st1 :
  is_no_retry_block b = false ->
  retry_count + 1 < effective_max_retries b ->
  run_phases t b phases st = (Return (false, fp), st1) ->
  let st2 := retry_state b phases retry_count fp st1 in
  block_loop t b phases (effective_max_retries b - retry_count) st =
  while_turn t b phases (retry_count + 1)
    (block_loop t b phases (effective_max_retries b - (retry_count + 2))) st2 /\
  (forall p, In p phases -> results st2 !! p = None) /\
  (forall q, ~ In q phases -> results st2 !! q = results st1 !! q) /\
  emitted st1 st2
    [EvRetrying b (retry_count + 1 + 1) (effective_max_retries b) fp; EvSleep 2] /\
  retry_trackers st2 = retry_trackers st1 /\
  world st2 = world st1 /\
  workflow_tasks st2 = workflow_tasks st1.
Proof.
  intros Hno Hlt Hrun st2. split.
  - set (k := effective_max_retries b - (retry_count + 2)).
    replace (effective_max_retries b - retry_count) with (S (S k)) by lia.
    rewrite block_loop_S.
    rewrite (while_turn_failed _ _ _ _ _ _ _ _ Hrun).
    replace (effective_max_retries b - S (S k)) with retry_count by lia.
    rewrite on_block_failure_retry by done.
    rewrite block_loop_S.
    by replace (effective_max_retries b - S k) with (retry_count + 1) by lia.
  - repeat split.
    + intros p Hp. by apply clear_block_results_in.
    + intros q Hq. by apply clear_block_results_notin.
    + unfold emitted. simpl. by rewrite <- app_assoc.
Qed.

(** ** The block loop and the loop over the blocks *)

Lemma effective_max_retries_cases (b : string) :
  (is_no_retry_block b = true /\ effective_max_retries b = 1) \/
  (is_no_retry_block b = false /\ effective_max_retries b = 5).
Proof.
  unfold effective_max_retries. destruct (is_no_retry_block b); [by left | by right].
Qed.

Lemma attempts_le t (b : string) (phases : list string) (k j : nat) st st' :
  attempts t b phases k st j st' -> k <= j.
Proof. induction 1; lia. Qed.

Lemma on_block_failure_no_retry (b : string) (phases : list string)
    (retry_count : nat) (fp : option string) (again : M World unit) st1 :
  is_no_retry_block b = true ->
  on_block_failure b phases retry_count fp again st1 =
  (Raise (BlockFailedNoRetry b fp), emit (EvNoRetryAllowed b) st1).
Proof. intros Hno. unfold on_block_failure. by rewrite Hno. Qed.

Lemma on_block_failure_exhausted (b : string) (phases : list string)
    (retry_count : nat) (fp : option string) (again : M World unit) st1 :
  is_no_retry_block b = false ->
  ~ retry_count + 1 < effective_max_retries b ->
  on_block_failure b phases retry_count fp again st1 =
  (Raise (BlockFailedAfter b (effective_max_retries b) fp), st1).
Proof.
  intros Hno Hge. unfold on_block_failure. rewrite Hno.
  destruct (Nat.ltb_spec (retry_count + 1) (effective_max_retries b)); [lia|done].
Qed.


(** The block loop raises exactly when some reached attempt below the
    ceiling fails and the block is no-retry or that attempt was the last. *)
Lemma block_loop_raise_iff t (b : string) (phases : list string)
    (remaining k : nat) st :
  k + remaining = effective_max_retries b ->
  is_raise (fst (block_loop t b phases remaining st)) = true <->
  exists j st_j fp st1,
    attempts t b phases k st j st_j /\
    j < effective_max_retries b /\
    run_phases t b phases st_j = (Return (false, fp), st1) /\
    (is_no_retry_block b = true \/ S j = effective_max_retries b).
Proof.
  revert k st. induction remaining as [|r IH]; intros k st Hk.
  - simpl. split; [done|].
    intros (j & st_j & fp & st1 & Hatt & Hj & _). apply attempts_le in Hatt. lia.
  - rewrite block_loop_S. replace (effective_max_retries b - S r) with k by lia.
    destruct (run_phases_facts t b phases st) as (ok & fp & st1 & evs & Hrun & _).
    destruct ok.
    + rewrite (while_turn_succeeded _ _ _ _ _ _ _ _ Hrun). simpl.
      split; [done|]. intros (j & st_j & fp' & st1' & Hatt & _ & Hrun' & _).
      inversion Hatt; subst; congruence.
    + rewrite (while_turn_failed _ _ _ _ _ _ _ _ Hrun).
      destruct (is_no_retry_block b) eqn:Hno.
      * rewrite on_block_failure_no_retry by done. simpl. split; [intros _|done].
        exists k, st, fp, st1. repeat split; try done; [constructor | lia | by left].
      * destruct (decide (k + 1 < effective_max_retries b)) as [Hlt|Hge].
        -- rewrite on_block_failure_retry by done.
           rewrite (IH (S k)) by lia. split.
           ++ intros (j & st_j & fp' & st1' & Hatt & Hrest).
              exists j, st_j, fp', st1'. split; [|done].
              eapply attempts_retry; eauto. lia.
           ++ intros (j & st_j & fp' & st1' & Hatt & Hj & Hrun' & Hlast).
              inversion Hatt; subst.
              ** destruct Hlast as [Hlast|Hlast]; [done|lia].
              ** exists j, st_j, fp', st1'.
                 match goal with
                 | Hr : run_phases _ _ _ st = _ |- _ =>
                     rewrite Hrun in Hr; injection Hr as <- <-
                 end.
                 done.
        -- rewrite on_block_failure_exhausted by done. simpl. split; [intros _|done].
           exists k, st, fp, st1. repeat split; try done; [constructor | lia | right; lia].
Qed.

Lemma run_block_eq t (b : string) (phases : list string) st :
  run_block t (b, phases) st =
  block_loop t b phases (effective_max_retries b) (emit (EvBlockStart b) st).
Proof. reflexivity. Qed.

Lemma run_blocks_cons_return t (blk : string * list string)
    (rest : list (string * list string)) st st' :
  run_block t blk st = (Return tt, st') ->
  run_blocks t (blk :: rest) st = run_blocks t rest st'.
Proof. intros Hblk. simpl. unfold bind. by rewrite Hblk. Qed.

Lemma run_blocks_cons_raise t (blk : string * list string)
    (rest : list (string * list string)) st e st' :
  run_block t blk st = (Raise e, st') ->
  run_blocks t (blk :: rest) st = (Raise e, st').
Proof. intros Hblk. simpl. unfold bind. by rewrite Hblk. Qed.

(** The loop over the blocks raises exactly when the blocks before some
    block all complete and that block raises. *)
Lemma run_blocks_raise_iff t (blocks : list (string * list string)) st :
  is_raise (fst (run_blocks t blocks st)) = true <->
  exists pre blk post st_b,
    blocks = pre ++ blk :: post /\
    run_blocks t pre st = (Return tt, st_b) /\
    is_raise (fst (run_block t blk st_b)) = true.
Proof.
  revert st. induction blocks as [|blk rest IH]; intros st.
  - simpl. split; [done|]. intros (pre & blk & post & st_b & Heq & _).
    by destruct pre.
  - destruct (run_block t blk st) as [[[]|e] st'] eqn:Hblk.
    + rewrite (run_blocks_cons_return _ _ _ _ _ Hblk), IH. split.
      * intros (pre & blk' & post & st_b & -> & Hpre & Hraise).
        exists (blk :: pre), blk', post, st_b. split; [done|]. split; [|done].
        by rewrite (run_blocks_cons_return _ _ _ _ _ Hblk).
      * intros (pre & blk' & post & st_b & Heq & Hpre & Hraise).
        destruct pre as [|blk0 pre]; simpl in Heq; injection Heq as <- ->.
        -- injection Hpre as <-. rewrite Hblk in Hraise. done.
        -- rewrite (run_blocks_cons_return _ _ _ _ _ Hblk) in Hpre.
           by exists pre, blk', post, st_b.
    + rewrite (run_blocks_cons_raise _ _ _ _ _ _ Hblk). simpl. split; [intros _|done].
      exists [], blk, rest, st. repeat split. by rewrite Hblk.
Qed.

(** ** Which keys the result map can hold *)

Lemma run_phases_keys t (b : string) (phases : list string) st ok fp st1 (q : string) :
  run_phases t b phases st = (Return (ok, fp), st1) ->
  is_Some (results st1 !! q) -> is_Some (results st !! q) \/ In q phases.
Proof.
  intros Hrun Hq.
  destruct (run_phases_facts_of _ _ _ _ _ _ _ Hrun) as (evs & Hf).
  destruct (af_frame _ _ _ _ _ _ _ _ Hf q) as [Hsame|Hex].
  - left. by rewrite <- Hsame.
  - right. by apply (af_executed_in _ _ _ _ _ _ _ _ Hf).
Qed.

Lemma block_loop_keys t (b : string) (phases : list string) (remaining : nat)
    st o st' (q : string) :
  block_loop t b phases remaining st = (o, st') ->
  is_Some (results st' !! q) -> is_Some (results st !! q) \/ In q phases.
Proof.
  revert st. induction remaining as [|r IH]; intros st.
  - simpl. intros [= <- <-]. by left.
  - rewrite block_loop_S.
    destruct (run_phases_facts t b phases st) as (ok & fp & st1 & evs & Hrun & _).
    pose proof (run_phases_keys _ _ _ _ _ _ _ q Hrun) as Hkeys.
    destruct ok.
    + rewrite (while_turn_succeeded _ _ _ _ _ _ _ _ Hrun). by intros [= <- <-].
    + rewrite (while_turn_failed _ _ _ _ _ _ _ _ Hrun).
      destruct (is_no_retry_block b) eqn:Hno.
      * rewrite on_block_failure_no_retry by done. by intros [= <- <-].
      * destruct (decide (effective_max_retries b - S r + 1 < effective_max_retries b)).
        -- rewrite on_block_failure_retry by done. intros Hloop Hq.
           destruct (IH _ Hloop Hq) as [Hq'|Hq']; [|by right].
           destruct (in_dec string_dec q phases) as [Hin|Hout]; [by right|].
           simpl in Hq'. rewrite clear_block_results_notin in Hq' by done. auto.
        -- rewrite on_block_failure_exhausted by done. by intros [= <- <-].
Qed.

Lemma run_blocks_keys t (blocks : list (string * list string)) st o st' (q : string) :
  run_blocks t blocks st = (o, st') ->
  is_Some (results st' !! q) ->
  is_Some (results st !! q) \/
  exists b phases, In (b, phases) blocks /\ In q phases.
Proof.
  revert st. induction blocks as [|[b phases] rest IH]; intros st.
  - simpl. intros [= <- <-]. by left.
  - destruct (run_block t (b, phases) st) as [[[]|e] st1] eqn:Hblk.
    + rewrite (run_blocks_cons_return _ _ _ _ _ Hblk). intros Hrest Hq.
      destruct (IH _ Hrest Hq) as [Hq1|(b' & phases' & Hin & Hq')].
      * rewrite run_block_eq in Hblk.
        destruct (block_loop_keys _ _ _ _ _ _ _ q Hblk Hq1) as [Hq0|Hq0]; [by left|].
        right. exists b, phases. split; [by left | done].
      * right. exists b', phases'. split; [by right | done].
    + rewrite (run_blocks_cons_raise _ _ _ _ _ _ Hblk). intros [= <- <-] Hq.
      rewrite run_block_eq in Hblk.
      destruct (block_loop_keys _ _ _ _ _ _ _ q Hblk Hq) as [Hq0|Hq0]; [by left|].
      right. exists b, phases. split; [by left | done].
Qed.

Lemma run_blocks_app_raise t (pre post : list (string * list string))
    (blk : string * list string) st st_b e st' :
  run_blocks t pre st = (Return tt, st_b) ->
  run_block t blk st_b = (Raise e, st') ->
  run_blocks t (pre ++ blk :: post) st = (Raise e, st').
Proof.
  revert st. induction pre as [|blk0 pre IH]; intros st; simpl.
  - intros [= <-] Hblk. unfold bind. by rewrite Hblk.
  - unfold bind. destruct (run_block t blk0 st) as [[[]|e0] st1]; [|done].
    intros Hpre Hblk. by apply IH.
Qed.

(** ** [execute_workflow] *)

Lemma execute_workflow_eq t st :
  project_template st = Some t ->
  execute_workflow st =
  match run_blocks t (BlockPlanner._define_workflow_blocks set_order t)
          (workflow_entry t st) with
  | (Return _, st') =>
      (Return (results st'), emit (EvSystem "info" "orchestrator") st')
  | (Raise e, st') => (Raise e, emit (EvSystem "error" "orchestrator") st')
  end.
Proof.
  intros Ht. unfold execute_workflow. unfold bind at 1. unfold gets at 1.
  rewrite Ht. unfold bind at 1. unfold log at 1, modify at 1.
  unfold bind at 1. unfold try_except.
  unfold bind at 1. unfold modify at 1.
  unfold _execute_workflow_with_retries. unfold bind at 1. unfold bind at 1.
  unfold log at 1, modify at 1.
  fold (workflow_entry t st).
  destruct (run_blocks t _ (workflow_entry t st)) as [[[]|e] st']; reflexivity.
Qed.

(** C3.  In whatever order the process lists the catch-all block,
    [execute_workflow] raises exactly when, the blocks before it having
    completed, some block reaches an attempt that fails while the block is
    no-retry or the attempt is the last one under its ceiling.  For a
    no-retry block the first failing attempt raises at once: the run ends in
    the state that attempt left, and the result map holds no key beyond those
    it started with and the phases of the blocks up to that one.  A block
    that does not raise hands over to the next block. *)
Theorem workflow_raises_iff t st :
  project_template st = Some t ->
  let blocks := BlockPlanner._define_workflow_blocks set_order t in
  let st0 := workflow_entry t st in
  (is_raise (fst (execute_workflow st)) = true <->
   exists pre b phases post st_b j st_j fp st1,
     blocks = pre ++ (b, phases) :: post /\
     run_blocks t pre st0 = (Return tt, st_b) /\
     attempts t b phases 0 (emit (EvBlockStart b) st_b) j st_j /\
     j < effective_max_retries b /\
     run_phases t b phases st_j = (Return (false, fp), st1) /\
     (is_no_retry_block b = true \/ S j = effective_max_retries b)) /\
  (forall pre b phases post st_b fp st1,
      blocks = pre ++ (b, phases) :: post ->
      run_blocks t pre st0 = (Return tt, st_b) ->
      is_no_retry_block b = true ->
      run_phases t b phases (emit (EvBlockStart b) st_b) = (Return (false, fp), st1) ->
      execute_workflow st =
      (Raise (BlockFailedNoRetry b fp),
       emit (EvSystem "error" "orchestrator") (emit (EvNoRetryAllowed b) st1)) /\
      forall q, is_Some (results st1 !! q) ->
        is_Some (results st !! q) \/
        exists b' phases', In (b', phases') (pre ++ [(b, phases)]) /\ In q phases') /\
  (forall blk rest s s',
      run_block t blk s = (Return tt, s') ->
      run_blocks t (blk :: rest) s = run_blocks t rest s').
Proof.
  intros Ht blocks st0. split; [|split].
  - rewrite (execute_workflow_eq t st Ht). fold blocks. fold st0.
    transitivity (is_raise (fst (run_blocks t blocks st0)) = true).
    { by destruct (run_blocks t blocks st0) as [[[]|e] st']. }
    rewrite run_blocks_raise_iff. split.
    + intros (pre & [b phases] & post & st_b & Heq & Hpre & Hraise).
      rewrite run_block_eq in Hraise.
      apply (block_loop_raise_iff t b phases _ 0) in Hraise; [|lia].
      destruct Hraise as (j & st_j & fp & st1 & Hrest).
      by exists pre, b, phases, post, st_b, j, st_j, fp, st1.
    + intros (pre & b & phases & post & st_b & j & st_j & fp & st1 & Heq & Hpre & Hrest).
      exists pre, (b, phases), post, st_b. split; [done|]. split; [done|].
      rewrite run_block_eq. apply (block_loop_raise_iff t b phases _ 0); [lia|].
      by exists j, st_j, fp, st1.
  - intros pre b phases post st_b fp st1 Heq Hpre Hno Hrun.
    assert (Hblk : run_block t (b, phases) st_b =
                   (Raise (BlockFailedNoRetry b fp), emit (EvNoRetryAllowed b) st1)).
    { rewrite run_block_eq.
      destruct (effective_max_retries_cases b) as [[_ ->]|[Hno' _]]; [|congruence].
      rewrite block_loop_S, (while_turn_failed _ _ _ _ _ _ _ _ Hrun).
      by apply on_block_failure_no_retry. }
    split.
    + rewrite (execute_workflow_eq t st Ht). fold blocks. fold st0. rewrite Heq.
      by rewrite (run_blocks_app_raise _ _ _ _ _ _ _ _ Hpre Hblk).
    + intros q Hq.
      assert (Hall : run_blocks t (pre ++ [(b, phases)]) st0 =
                     (Raise (BlockFailedNoRetry b fp), emit (EvNoRetryAllowed b) st1)).
      { by apply (run_blocks_app_raise _ _ _ _ _ _ _ _ Hpre Hblk). }
      by apply (run_blocks_keys _ _ _ _ _ q Hall).
  - intros blk rest s s'. apply run_blocks_cons_return.
Qed.

(** ** Phases without a task *)

Lemma create_tasks_spec (roles : list string) (catalog : gmap string TaskInfo)
    (phases : list PhaseInfo) (ts : list AgentTask)
    (logs : list TemplateLoader.LoaderLog) :
  TemplateLoader.create_tasks roles catalog phases = Some (ts, logs) ->
  map task_id ts =
  map TemplateLoader.task_id_of
    (List.filter (TemplateLoader.compilable roles catalog) phases) /\
  length logs =
  length (List.filter (fun ph => negb (TemplateLoader.compilable roles catalog ph))
            phases).
Proof.
  revert ts logs. induction phases as [|ph rest IH]; intros ts logs.
  - by intros [= <- <-].
  - cbn [TemplateLoader.create_tasks List.filter].
    destruct (TemplateLoader.create_tasks roles catalog rest) as [[ts' logs']|].
    2:{ repeat case_match; done. }
    destruct (IH ts' logs' eq_refl) as [IHts IHlogs].
    pose proof (eq_refl (TemplateLoader.compilable roles catalog ph)) as Hc.
    unfold TemplateLoader.compilable at 2 in Hc.
    destruct (TemplateLoader.compilable roles catalog ph) eqn:Hcomp;
      destruct (catalog !! phase ph) as [task_info|]; try done;
      destruct (TemplateLoader.is_in (agent ph) roles); try done;
      destruct (AgentRole_of_value (agent ph)) as [agent_role|]; try done;
      simpl; try (intros [= <- <-]; simpl; by rewrite IHts, IHlogs).
    destruct (TemplateLoader.dependency_roles roles (dependencies ph)); [|done].
    intros [= <- <-]. simpl. by rewrite IHts, IHlogs.
Qed.

(** C8, amended.  The task compiler builds a task for exactly the phases that
    have a catalog entry and a known role, in order, and logs one entry for
    each phase it skips; when the executor reaches a phase whose dependencies
    are satisfied and finds no task for it, the attempt fails at that phase
    and the rest of the block is not run. *)
Theorem missing_task_policy (roles : list string) t (ts : list AgentTask)
    (logs : list TemplateLoader.LoaderLog) (b p : string) (rest : list string)
    st (phase_info : PhaseInfo) :
  TemplateLoader.create_agent_tasks roles t = Some (ts, logs) ->
  workflow_tasks st = ts ->
  _get_phase_info t p = Some phase_info ->
  deps_satisfied (dependencies phase_info) (results st) = true ->
  find_task_from 0 p ts = None ->
  map task_id ts =
  map TemplateLoader.task_id_of
    (List.filter (TemplateLoader.compilable roles (tasks t)) (workflow_phases t)) /\
  length logs =
  length (List.filter
            (fun ph => negb (TemplateLoader.compilable roles (tasks t) ph))
            (workflow_phases t)) /\
  run_phases t b (p :: rest) st =
  (Return (false, Some p), emit (EvNoTask p) st).
Proof.
  intros Hcreate Hts Hinfo Hdeps Hfind.
  destruct (create_tasks_spec _ _ _ _ _ Hcreate) as [Hids Hlogs].
  split; [done|]. split; [done|].
  rewrite run_phases_cons, Hinfo, Hdeps, Hts, Hfind. done.
Qed.

End Properties.

(* ======================================================================== *)
(** * The properties on concrete workflows *)

(** ** The retry scenario: development succeeds, testing fails once *)

(** C2, on the code.  After the run in which testing fails on the first
    attempt and succeeds on the second, the result map holds the successful
    results of the second attempt for development and testing, the trace
    shows the one retry of the block, and the retry trackers of both phases
    are as they were created: no retry entry was recorded. *)
Theorem retry_scenario_result :
  let run := execute_workflow Demo.first_attempt in
  (exists ra rb,
      fst run = Return (results (snd run)) /\
      results (snd run) !! "development" = Some ra /\
      success ra = true /\ output ra = "rebuilt" /\
      results (snd run) !! "testing" = Some rb /\
      success rb = true /\ output rb = "all green") /\
  In (EvRetrying "development_testing" 2 5 (Some "testing")) (trace (snd run)) /\
  retry_trackers (snd run) !! "development" = Some (new_tracker "development" 3) /\
  retry_trackers (snd run) !! "testing" = Some (new_tracker "testing" 3).
Proof.
  cbv zeta. split; [|split; [|split]].
  - eexists _, _.
    split; [vm_compute; reflexivity|].
    split; [vm_compute; reflexivity|].
    split; [vm_compute; reflexivity|].
    split; [vm_compute; reflexivity|].
    split; [vm_compute; reflexivity|].
    split; vm_compute; reflexivity.
  - vm_compute. tauto.
  - vm_compute. reflexivity.
  - vm_compute. reflexivity.
Qed.

Lemma first_attempt_fails :
  run_phases Demo.dev_test "development_testing" Demo.dev_test_block
    Demo.first_attempt =
  (Return (false, Some "testing"), Demo.after_first_attempt).
Proof. vm_compute. reflexivity. Defined.

(** C1 on the retry scenario: the first attempt left a result for
    development, the retry starts without it, over the whole block. *)
Lemma retry_clears_block_and_restarts_witness :
  let st2 := retry_state "development_testing" Demo.dev_test_block 0
               (Some "testing") Demo.after_first_attempt in
  is_Some (results Demo.after_first_attempt !! "development") /\
  results st2 !! "development" = None /\
  results st2 !! "testing" = None /\
  block_loop Demo.dev_test "development_testing" Demo.dev_test_block
    (effective_max_retries "development_testing" - 0) Demo.first_attempt =
  while_turn Demo.dev_test "development_testing" Demo.dev_test_block (0 + 1)
    (block_loop Demo.dev_test "development_testing" Demo.dev_test_block
       (effective_max_retries "development_testing" - (0 + 2))) st2.
Proof.
  cbv zeta.
  assert (Hno : is_no_retry_block "development_testing" = false)
    by (vm_compute; reflexivity).
  assert (Hlt : 0 + 1 < effective_max_retries "development_testing")
    by (vm_compute; lia).
  pose proof (retry_clears_block_and_restarts Demo.dev_test "development_testing"
                Demo.dev_test_block 0 Demo.first_attempt (Some "testing")
                Demo.after_first_attempt Hno Hlt first_attempt_fails) as Hthm.
  cbv zeta in Hthm. destruct Hthm as (Hloop & Hin & _).
  split; [vm_compute; eexists; reflexivity|].
  split; [apply Hin; left; reflexivity|].
  split; [apply Hin; right; left; reflexivity|].
  exact Hloop.
Defined.



(** C9 on a tester whose output mentions an error: the stored result is
    the tester's, successful, and flagged for retry by the bug scan. *)
Lemma testing_phase_error_requires_retry_witness :
  PyStr.contains "test" (PyStr.lower "testing") = true /\
  exists r,
    results (snd (_execute_phase "testing" 1 Demo.testing_task
                    (Demo.fresh Demo.dev_test Demo.error_report)))
      !! "testing" = Some r /\
    output r = "1 error found" /\
    success r = true /\
    requires_retry r = true /\
    retry_reason r = Some "Bugs found during testing: errors found in testing".
Proof.
  assert (Htest : PyStr.contains "test" (PyStr.lower "testing") = true)
    by (vm_compute; reflexivity).
  split; [exact Htest|].
  pose proof (testing_phase_error_requires_retry "testing" 1 Demo.testing_task
                (Demo.fresh Demo.dev_test Demo.error_report) Htest) as Hthm.
  cbv zeta in Hthm.
  destruct Hthm as (r & Hr & Hs & Ho & _ & _ & Hflag & Hscan & _).
  exists r. split; [exact Hr|].
  split; [rewrite Ho; vm_compute; reflexivity|].
  split; [rewrite Hs; vm_compute; reflexivity|].
  split; [apply Hflag; rewrite Ho; vm_compute; reflexivity|].
  destruct Hscan as [_ Hreason];
    [vm_compute; reflexivity | vm_compute; reflexivity |].
  rewrite Hreason. vm_compute. reflexivity.
Defined.

(** ** The order of the catch-all block *)

(** release and deploy, which depends on release, make the catch-all block,
    and the agent fails on every second call.  In a process that lists
    release first, deploy is executed and fails in each of the five
    attempts, and the run raises; in one that lists deploy first, deploy is
    skipped, release succeeds, and the run returns. *)
Lemma misc_order_decides_outcome :
  BlockPlanner._define_workflow_blocks BlockPlanner.elements_order
    Demo.release_deploy = [("misc", ["release"; "deploy"])] /\
  BlockPlanner._define_workflow_blocks BlockPlanner.reversed_order
    Demo.release_deploy = [("misc", ["deploy"; "release"])] /\
  fst (@execute_workflow Demo.Script
         (Demo.scripted_with BlockPlanner.elements_order [])
         (Demo.fresh Demo.release_deploy Demo.every_other_fails))
  = Raise (BlockFailedAfter "misc" 5 (Some "deploy")) /\
  is_raise
    (fst (@execute_workflow Demo.Script
            (Demo.scripted_with BlockPlanner.reversed_order [])
            (Demo.fresh Demo.release_deploy Demo.every_other_fails)))
  = false.
Proof.
  split; [vm_compute; reflexivity|].
  split; [vm_compute; reflexivity|].
  split; [vm_compute; reflexivity|].
  vm_compute. reflexivity.
Qed.

(** ** A no-retry block that fails *)

(** C3 on the workflow whose planning phase fails: the run raises at once,
    and ends in the state the failed attempt left. *)
Lemma workflow_raises_iff_witness :
  project_template Demo.plan_fails = Some Demo.plan_dev /\
  execute_workflow Demo.plan_fails =
  (Raise (BlockFailedNoRetry "planning_no_retry" (Some "planning")),
   emit (EvSystem "error" "orchestrator")
     (emit (EvNoRetryAllowed "planning_no_retry") Demo.after_planning)) /\
  results Demo.after_planning !! "development" = None.
Proof.
  assert (Ht : project_template Demo.plan_fails = Some Demo.plan_dev)
    by reflexivity.
  split; [exact Ht|].
  pose proof (workflow_raises_iff Demo.plan_dev Demo.plan_fails Ht) as Hthm.
  cbv zeta in Hthm. destruct Hthm as (_ & Hno & _).
  destruct (Hno [] "planning_no_retry" ["planning"]
              [("development_testing", ["development"])]
              Demo.plan_fails_entry (Some "planning") Demo.after_planning)
    as [Hraise _].
  - vm_compute. reflexivity.
  - reflexivity.
  - vm_compute. reflexivity.
  - vm_compute. reflexivity.
  - split; [exact Hraise|]. vm_compute. reflexivity.
Defined.

(** ** Phases the planner puts into two blocks *)

(** C4 as stated fails: "ui_development" matches the design keyword "ui" and
    the development keyword "development", and is put into both blocks. *)
Lemma blocks_overlap_counterexample :
  BlockPlanner._define_workflow_blocks BlockPlanner.elements_order Demo.ui_dev =
  [("design", ["ui_development"]); ("development_testing", ["ui_development"])] /\
  BlockPlanner.first_match "ui_development" = "design".
Proof. split; vm_compute; reflexivity. Qed.

(** ** A phase skipped for unmet dependencies *)


(** ** A phase without a task *)


(** C8 as stated fails: the phase without a catalog entry is skipped by the
    task compiler with a warning, and then fails its block five times and
    aborts the workflow. *)
Lemma missing_task_aborts_counterexample :
  TemplateLoader.create_agent_tasks Demo.roles Demo.no_catalog =
  Some ([], [TemplateLoader.WarnTaskInfoNotFound "development"]) /\
  fst (execute_workflow (Demo.fresh Demo.no_catalog [])) =
  Raise (BlockFailedAfter "development_testing" 5 (Some "development")).
Proof. split; vm_compute; reflexivity. Qed.

(** C8, amended, on the workflow without a task catalog. *)
Lemma missing_task_policy_witness :
  TemplateLoader.create_agent_tasks Demo.roles Demo.no_catalog =
  Some ([], [TemplateLoader.WarnTaskInfoNotFound "development"]) /\
  run_phases Demo.no_catalog "development_testing" ["development"]
    (Demo.fresh Demo.no_catalog []) =
  (Return (false, Some "development"),
   emit (EvNoTask "development") (Demo.fresh Demo.no_catalog [])).
Proof.
  assert (Hc : TemplateLoader.create_agent_tasks Demo.roles Demo.no_catalog =
               Some ([], [TemplateLoader.WarnTaskInfoNotFound "development"]))
    by (vm_compute; reflexivity).
  split; [exact Hc|].
  apply (missing_task_policy Demo.roles Demo.no_catalog []
           [TemplateLoader.WarnTaskInfoNotFound "development"]
           "development_testing" "development" [] (Demo.fresh Demo.no_catalog [])
           (mkPhaseInfo "development" "python_developer" [] false)).
  - exact Hc.
  - vm_compute. reflexivity.
  - vm_compute. reflexivity.
  - vm_compute. reflexivity.
  - vm_compute. reflexivity.
Defined.

(* ======================================================================== *)
(** * Further properties of the code *)

(** ** models/task.py: the retry tracker *)

Lemma add_retry_attempts_spec (calls : list (string * string * nat))
    (t : PhaseRetryTracker) :
  let t' := add_retry_attempts calls t in
  tracker_retry_count t' = tracker_retry_count t + length calls /\
  max_retries t' = max_retries t /\
  phase_name t' = phase_name t /\
  exists entries,
    retry_history t' = retry_history t ++ entries /\
    map entry_attempt entries = seq (tracker_retry_count t + 1) (length calls) /\
    map entry_triggered_by entries = map (fun c => fst (fst c)) calls /\
    map entry_reason entries = map (fun c => snd (fst c)) calls.
Proof.
  revert t. induction calls as [|[[by_phase reason] now] calls IH]; intros t.
  - simpl. repeat split; try lia. exists []. by rewrite app_nil_r.
  - cbn [add_retry_attempts foldl].
    destruct (IH (add_retry_attempt by_phase reason now t))
      as (Hcount & Hmax & Hname & entries & Hhist & Hnum & Hby & Hreason).
    unfold add_retry_attempts in *. cbv zeta in *.
    rewrite Hcount, Hmax, Hname. simpl.
    repeat split; try lia.
    exists (mkRetryEntry (tracker_retry_count t + 1) by_phase reason now :: entries).
    rewrite Hhist. simpl. rewrite <- app_assoc. simpl.
    split; [done|]. rewrite Hnum, Hby, Hreason.
    repeat split. simpl. do 2 f_equal. lia.
Qed.

(** X1.  The history of a tracker holds one entry per call of
    [add_retry_attempt], numbered 1, 2, ... in the order of the calls, with
    the triggering phases and reasons of the calls; the counter is their
    number, whatever the ceiling. *)
Theorem retry_history_numbered (calls : list (string * string * nat))
    (name : string) (ceiling : nat) :
  let t := add_retry_attempts calls (new_tracker name ceiling) in
  tracker_retry_count t = length calls /\
  map entry_attempt (retry_history t) = seq 1 (length calls) /\
  map entry_triggered_by (retry_history t) = map (fun c => fst (fst c)) calls /\
  map entry_reason (retry_history t) = map (fun c => snd (fst c)) calls /\
  max_retries t = ceiling.
Proof.
  destruct (add_retry_attempts_spec calls (new_tracker name ceiling))
    as (Hcount & Hmax & _ & entries & Hhist & Hnum & Hby & Hreason).
  cbv zeta. rewrite Hhist. simpl in *. by rewrite Hcount, Hmax, Hnum, Hby, Hreason.
Qed.

(** X2.  A tracker created with a ceiling can retry exactly while fewer calls of
    [add_retry_attempt] than the ceiling were made: after that many calls
    [can_retry] is false, and further calls are still recorded. *)
Theorem can_retry_below_ceiling (calls : list (string * string * nat))
    (name : string) (ceiling : nat) :
  can_retry (add_retry_attempts calls (new_tracker name ceiling)) = true <->
  length calls < ceiling.
Proof.
  destruct (add_retry_attempts_spec calls (new_tracker name ceiling))
    as (Hcount & Hmax & _).
  unfold can_retry. rewrite Hcount, Hmax. simpl. apply Nat.ltb_lt.
Qed.

(** ** core/orchestrator.py: which phase to retry *)

Module PyStrMore.
Import PyStr.

Lemma startswith_contains (k s : string) :
  startswith k s = true -> contains k s = true.
Proof. destruct s; simpl; intros ->; done. Qed.

Lemma contains_tail (k : string) (c : ascii) (s : string) :
  contains k s = true -> contains k (String c s) = true.
Proof. intros Hk. simpl. rewrite Hk. apply orb_true_r. Qed.

(** A word found in a text: so is the word without its first letter. *)
Lemma contains_drop_first (c : ascii) (k s : string) :
  contains (String c k) s = true -> contains k s = true.
Proof.
  induction s as [|a s IH]; simpl.
  - done.
  - intros [Hs|Hc]%orb_true_iff.
    + destruct (Ascii.eqb c a); [|done].
      apply contains_tail. by apply startswith_contains.
    + apply contains_tail. auto.
Qed.

Lemma startswith_app (k k' s : string) :
  startswith (k +:+ k') s = true -> startswith k s = true.
Proof.
  revert s. induction k as [|c k IH]; intros s; simpl; [done|].
  destruct s as [|a s]; [done|]. destruct (Ascii.eqb c a); [apply IH | done].
Qed.

(** A word found in a text: so is each of its beginnings. *)
Lemma contains_app (k k' s : string) :
  contains (k +:+ k') s = true -> contains k s = true.
Proof.
  induction s as [|a s IH]; simpl.
  - rewrite !orb_false_r. apply startswith_app.
  - intros [Hs|Hc]%orb_true_iff; apply orb_true_iff.
    + left. by apply (startswith_app k k').
    + right. auto.
Qed.

Lemma retesting_testing (s : string) :
  contains "retesting" s = true -> contains "testing" s = true.
Proof. intros Hr. by do 2 apply contains_drop_first in Hr. Qed.

Lemma testing_test (s : string) :
  contains "testing" s = true -> contains "test" s = true.
Proof. apply (contains_app "test" "ing"). Qed.

End PyStrMore.

(** X3.  [_determine_retry_phase] answers "development" for every phase whose
    lowered name contains "test", "qa" or "verification" and nothing for any
    other phase: the mapping of "retesting" to "bug_fixing" is never used,
    because "testing" is tried first. *)
Theorem determine_retry_phase_spec (current_phase reason : string) :
  RetryPolicy._determine_retry_phase current_phase reason =
  (if PyStr.contains "test" (PyStr.lower current_phase)
      || PyStr.contains "qa" (PyStr.lower current_phase)
      || PyStr.contains "verification" (PyStr.lower current_phase)
   then Some "development" else None) /\
  RetryPolicy._determine_retry_phase current_phase reason <> Some "bug_fixing".
Proof.
  assert (Heq : RetryPolicy._determine_retry_phase current_phase reason =
    (if PyStr.contains "test" (PyStr.lower current_phase)
        || PyStr.contains "qa" (PyStr.lower current_phase)
        || PyStr.contains "verification" (PyStr.lower current_phase)
     then Some "development" else None)).
  { unfold RetryPolicy._determine_retry_phase, RetryPolicy.retry_mappings.
    cbn [RetryPolicy.first_mapping].
    set (l := PyStr.lower current_phase).
    destruct (PyStr.contains "testing" l) eqn:Htesting.
    { by rewrite (PyStrMore.testing_test l Htesting). }
    destruct (PyStr.contains "retesting" l) eqn:Hre.
    { apply PyStrMore.retesting_testing in Hre. congruence. }
    destruct (PyStr.contains "qa" l); [by rewrite orb_true_r|].
    destruct (PyStr.contains "verification" l); [by rewrite orb_true_r|].
    rewrite !orb_false_r. by destruct (PyStr.contains "test" l). }
  split; [exact Heq|]. rewrite Heq.
  by destruct (_ || _).
Qed.

(** ** core/orchestrator.py: the phase-level retry trigger *)

Lemma phases_from_found (start_phase : string) (ps : list PhaseInfo) :
  phases_from start_phase true ps = map phase ps.
Proof. induction ps as [|ph ps IH]; simpl; [done|]. by rewrite IH. Qed.

(** X4.  [_get_phases_from] returns the phase names from the first occurrence of
    the start phase to the end of the workflow, and nothing when the start
    phase is not a phase of the workflow. *)
Theorem get_phases_from_suffix (t : ProjectTemplate) (start_phase : string) :
  exists before,
    map phase (workflow_phases t) = before ++ _get_phases_from t start_phase /\
    ~ In start_phase before /\
    (In start_phase (map phase (workflow_phases t)) ->
     head (_get_phases_from t start_phase) = Some start_phase) /\
    (~ In start_phase (map phase (workflow_phases t)) ->
     _get_phases_from t start_phase = []).
Proof.
  unfold _get_phases_from.
  induction (workflow_phases t) as [|ph ps IH]; simpl.
  - exists []. repeat split; try done. tauto.
  - destruct (String.eqb (phase ph) start_phase) eqn:Heq.
    + apply String.eqb_eq in Heq. rewrite phases_from_found.
      exists []. repeat split; try done.
      * tauto.
      * simpl. by rewrite Heq.
      * intros Hnot. destruct Hnot. by left.
    + apply String.eqb_neq in Heq.
      destruct IH as (before & Hnames & Hbefore & Hin & Hout).
      exists (phase ph :: before). simpl. rewrite <- Hnames.
      repeat split; try done.
      * intros [?|?]; tauto.
      * intros [?|?]; [done | auto].
      * intros Hnot. apply Hout. tauto.
Qed.

Section MoreProperties.

Context `{WorldOps World}.

Implicit Types (st : Orchestrator World) (t : ProjectTemplate).

(** X5.  [_trigger_phase_retry] on a phase that has a tracker records the attempt
    in that tracker only, removes the results of the retried phase and of
    every later phase of the workflow, keeps every other result, and logs one
    event; it does not consult [can_retry]. *)
Theorem trigger_phase_retry_spec t (now : nat) (retry_phase by_phase reason : string)
    st (tracker : PhaseRetryTracker) :
  retry_trackers st !! retry_phase = Some tracker ->
  exists st',
    _trigger_phase_retry t now retry_phase by_phase reason st = Some st' /\
    retry_trackers st' !! retry_phase =
      Some (add_retry_attempt by_phase reason now tracker) /\
    (forall q, q <> retry_phase ->
       retry_trackers st' !! q = retry_trackers st !! q) /\
    (forall q, In q (_get_phases_from t retry_phase) -> results st' !! q = None) /\
    (forall q, ~ In q (_get_phases_from t retry_phase) ->
       results st' !! q = results st !! q) /\
    trace st' =
      trace st ++ [EvTriggerRetry retry_phase by_phase (tracker_retry_count tracker + 1)].
Proof.
  intros Htracker. unfold _trigger_phase_retry. rewrite Htracker.
  eexists. split; [reflexivity|]. simpl.
  split; [by rewrite lookup_insert_eq|].
  split; [intros q Hq; by rewrite lookup_insert_ne|].
  split; [intros q Hq; by apply clear_block_results_in|].
  split; [intros q Hq; by apply clear_block_results_notin|].
  done.
Qed.

Lemma trigger_phase_retry_no_tracker t (now : nat)
    (retry_phase by_phase reason : string) st :
  retry_trackers st !! retry_phase = None ->
  _trigger_phase_retry t now retry_phase by_phase reason st = None.
Proof. intros Hnone. unfold _trigger_phase_retry. by rewrite Hnone. Qed.

(** ** core/orchestrator.py: the trackers during a run *)

Lemma block_loop_trackers t (b : string) (phases : list string) (remaining : nat)
    st o st' :
  block_loop t b phases remaining st = (o, st') ->
  retry_trackers st' = retry_trackers st.
Proof.
  revert st. induction remaining as [|r IH]; intros st.
  - simpl. by intros [= <- <-].
  - rewrite block_loop_S.
    destruct (run_phases_facts t b phases st) as (ok & fp & st1 & evs & Hrun & Hf).
    pose proof (af_trackers _ _ _ _ _ _ _ _ Hf) as Htr.
    destruct ok.
    + rewrite (while_turn_succeeded _ _ _ _ _ _ _ _ Hrun). by intros [= <- <-].
    + rewrite (while_turn_failed _ _ _ _ _ _ _ _ Hrun).
      destruct (is_no_retry_block b) eqn:Hno.
      * rewrite on_block_failure_no_retry by done. by intros [= <- <-].
      * destruct (decide (effective_max_retries b - S r + 1 < effective_max_retries b)).
        -- rewrite on_block_failure_retry by done. intros Hloop.
           by rewrite (IH _ Hloop).
        -- rewrite on_block_failure_exhausted by done. by intros [= <- <-].
Qed.

Lemma run_blocks_trackers t (blocks : list (string * list string)) st o st' :
  run_blocks t blocks st = (o, st') ->
  retry_trackers st' = retry_trackers st.
Proof.
  revert st. induction blocks as [|[b phases] rest IH]; intros st.
  - simpl. by intros [= <- <-].
  - destruct (run_block t (b, phases) st) as [[[]|e] st1] eqn:Hblk.
    + rewrite (run_blocks_cons_return _ _ _ _ _ Hblk). intros Hrest.
      rewrite (IH _ Hrest). rewrite run_block_eq in Hblk.
      by rewrite (block_loop_trackers _ _ _ _ _ _ _ Hblk).
    + rewrite (run_blocks_cons_raise _ _ _ _ _ _ Hblk). intros [= <- <-].
      rewrite run_block_eq in Hblk.
      by rewrite (block_loop_trackers _ _ _ _ _ _ _ Hblk).
Qed.

Lemma block_loop_template t (b : string) (phases : list string) (remaining : nat)
    st o st' :
  block_loop t b phases remaining st = (o, st') ->
  project_template st' = project_template st.
Proof.
  revert st. induction remaining as [|r IH]; intros st.
  - simpl. by intros [= <- <-].
  - rewrite block_loop_S.
    destruct (run_phases_facts t b phases st) as (ok & fp & st1 & evs & Hrun & Hf).
    pose proof (af_template _ _ _ _ _ _ _ _ Hf) as Htr.
    destruct ok.
    + rewrite (while_turn_succeeded _ _ _ _ _ _ _ _ Hrun). by intros [= <- <-].
    + rewrite (while_turn_failed _ _ _ _ _ _ _ _ Hrun).
      destruct (is_no_retry_block b) eqn:Hno.
      * rewrite on_block_failure_no_retry by done. by intros [= <- <-].
      * destruct (decide (effective_max_retries b - S r + 1 < effective_max_retries b)).
        -- rewrite on_block_failure_retry by done. intros Hloop.
           by rewrite (IH _ Hloop).
        -- rewrite on_block_failure_exhausted by done. by intros [= <- <-].
Qed.

Lemma run_blocks_template t (blocks : list (string * list string)) st o st' :
  run_blocks t blocks st = (o, st') ->
  project_template st' = project_template st.
Proof.
  revert st. induction blocks as [|[b phases] rest IH]; intros st.
  - simpl. by intros [= <- <-].
  - destruct (run_block t (b, phases) st) as [[[]|e] st1] eqn:Hblk.
    + rewrite (run_blocks_cons_return _ _ _ _ _ Hblk). intros Hrest.
      rewrite (IH _ Hrest). rewrite run_block_eq in Hblk.
      by rewrite (block_loop_template _ _ _ _ _ _ _ Hblk).
    + rewrite (run_blocks_cons_raise _ _ _ _ _ _ Hblk). intros [= <- <-].
      rewrite run_block_eq in Hblk.
      by rewrite (block_loop_template _ _ _ _ _ _ _ Hblk).
Qed.

Lemma template_after_run t st o st' :
  project_template st = Some t ->
  execute_workflow st = (o, st') ->
  project_template st' = Some t.
Proof.
  intros Ht. rewrite (execute_workflow_eq t st Ht).
  destruct (run_blocks t _ (workflow_entry t st)) as [o1 st1] eqn:Hrun.
  pose proof (run_blocks_template _ _ _ _ _ Hrun) as Htr.
  intros Hexec.
  destruct o1; injection Hexec as <- <-; simpl; by rewrite Htr.
Qed.

Lemma init_retry_trackers_other (phases : list PhaseInfo)
    (trackers : gmap string PhaseRetryTracker) (p : string) :
  ~ In p (map phase phases) ->
  foldl (fun acc phase_info =>
           <[phase phase_info := new_tracker (phase phase_info) 3]> acc)
        trackers phases !! p = trackers !! p.
Proof.
  revert trackers. induction phases as [|ph phases IH]; intros trackers; simpl.
  - done.
  - intros Hout. rewrite IH by tauto. apply lookup_insert_ne. tauto.
Qed.

Lemma init_retry_trackers_phase (phases : list PhaseInfo)
    (trackers : gmap string PhaseRetryTracker) (p : string) :
  In p (map phase phases) ->
  foldl (fun acc phase_info =>
           <[phase phase_info := new_tracker (phase phase_info) 3]> acc)
        trackers phases !! p = Some (new_tracker p 3).
Proof.
  revert trackers. induction phases as [|ph phases IH]; intros trackers; simpl.
  - done.
  - intros Hin.
    destruct (in_dec string_dec p (map phase phases)) as [Hlater|Hnot].
    + by apply IH.
    + destruct Hin as [<-|Hin]; [|done].
      rewrite init_retry_trackers_other by done. by rewrite lookup_insert_eq.
Qed.

Lemma trackers_after_run t st o st' :
  project_template st = Some t ->
  execute_workflow st = (o, st') ->
  retry_trackers st' = init_retry_trackers t (retry_trackers st).
Proof.
  intros Ht. rewrite (execute_workflow_eq t st Ht).
  destruct (run_blocks t _ (workflow_entry t st)) as [o1 st1] eqn:Hrun.
  pose proof (run_blocks_trackers _ _ _ _ _ Hrun) as Htr.
  intros Hexec.
  destruct o1; injection Hexec as <- <-; simpl; by rewrite Htr.
Qed.

(** X6.  Whatever happens in a run of [execute_workflow], retries or abort
    included, every phase of the workflow ends with a tracker as it was
    created (count 0, empty history, ceiling 3), and the trackers of other
    names are untouched: the block loop records no retry. *)
Theorem execute_workflow_trackers t st o st' :
  project_template st = Some t ->
  execute_workflow st = (o, st') ->
  (forall p, In p (BlockPlanner.all_phase_names t) ->
     retry_trackers st' !! p = Some (new_tracker p 3)) /\
  (forall q, ~ In q (BlockPlanner.all_phase_names t) ->
     retry_trackers st' !! q = retry_trackers st !! q).
Proof.
  intros Ht Hexec. rewrite (trackers_after_run t st o st' Ht Hexec).
  unfold init_retry_trackers, BlockPlanner.all_phase_names.
  split; intros p Hp.
  - by apply init_retry_trackers_phase.
  - by apply init_retry_trackers_other.
Qed.

Lemma retry_status_no_retries st :
  (forall p tracker,
      retry_trackers st !! p = Some tracker -> tracker_retry_count tracker = 0) ->
  get_retry_status st =
  {| total_phases := size (retry_trackers st);
     phases_with_retries := 0; total_retry_attempts := 0 |}.
Proof.
  unfold get_retry_status.
  generalize (size (retry_trackers st)). intros n.
  induction (retry_trackers st) as [|p tracker m Hp Hfold IH] using map_first_key_ind.
  - intros _. by rewrite map_fold_empty.
  - intros Hall. rewrite map_fold_insert_first_key by done.
    rewrite IH.
    + rewrite (Hall p tracker) by by rewrite lookup_insert_eq. done.
    + intros q tr Hq. apply (Hall q tr).
      rewrite lookup_insert_ne; [done|]. intros ->. congruence.
Qed.

(** X7.  After a run of [execute_workflow] on an orchestrator that had no tracker
    before, [get_retry_status] reports no phase with retries and no retry
    attempt, however many times blocks were retried. *)
Theorem retry_status_after_run t st o st' :
  project_template st = Some t ->
  retry_trackers st = ∅ ->
  execute_workflow st = (o, st') ->
  phases_with_retries (get_retry_status st') = 0 /\
  total_retry_attempts (get_retry_status st') = 0.
Proof.
  intros Ht Hempty Hrun.
  rewrite retry_status_no_retries; [done|].
  intros p tracker. rewrite (trackers_after_run t st o st' Ht Hrun).
  unfold init_retry_trackers. intros Hp.
  destruct (in_dec string_dec p (map phase (workflow_phases t))) as [Hphase|Hother].
  - rewrite init_retry_trackers_phase in Hp by done. by injection Hp as <-.
  - rewrite init_retry_trackers_other, Hempty in Hp by done. done.
Qed.

End MoreProperties.

(** ** core/orchestrator.py: what a run leaves in the result map *)

Section RunInvariants.

Context `{WorldOps World}.

Implicit Types (st : Orchestrator World) (t : ProjectTemplate).

Lemma run_phases_all_successful t (b : string) (phases : list string) st fp st1 :
  run_phases t b phases st = (Return (true, fp), st1) ->
  all_successful st -> all_successful st1.
Proof.
  intros Hrun Hgood q r Hq.
  destruct (run_phases_facts_of _ _ _ _ _ _ _ Hrun) as (evs & Hf).
  destruct (af_frame _ _ _ _ _ _ _ _ Hf q) as [Hsame|Hex].
  - apply (Hgood q). by rewrite <- Hsame.
  - assert (Hnone : fp = None) by by apply (af_ok _ _ _ _ _ _ _ _ Hf).
    destruct (af_good _ _ _ _ _ _ _ _ Hf q Hex) as (r' & Hr' & Hs); [by rewrite Hnone|].
    congruence.
Qed.

Lemma retry_state_all_successful t (b : string) (phases : list string)
    (retry_count : nat) st ok fp st1 :
  run_phases t b phases st = (Return (ok, fp), st1) ->
  all_successful st ->
  all_successful (retry_state b phases retry_count fp st1).
Proof.
  intros Hrun Hgood q r. simpl. intros Hq.
  destruct (run_phases_facts_of _ _ _ _ _ _ _ Hrun) as (evs & Hf).
  destruct (in_dec string_dec q phases) as [Hin|Hout].
  - by rewrite clear_block_results_in in Hq.
  - rewrite clear_block_results_notin in Hq by done.
    destruct (af_frame _ _ _ _ _ _ _ _ Hf q) as [Hsame|Hex].
    + apply (Hgood q). by rewrite <- Hsame.
    + destruct Hout. by apply (af_executed_in _ _ _ _ _ _ _ _ Hf).
Qed.

Lemma block_loop_all_successful t (b : string) (phases : list string)
    (remaining : nat) st st' :
  block_loop t b phases remaining st = (Return tt, st') ->
  all_successful st -> all_successful st'.
Proof.
  revert st. induction remaining as [|r IH]; intros st.
  - simpl. by intros [= <-].
  - rewrite block_loop_S.
    destruct (run_phases_facts t b phases st) as (ok & fp & st1 & evs & Hrun & _).
    destruct ok.
    + rewrite (while_turn_succeeded _ _ _ _ _ _ _ _ Hrun). intros [= <-] Hgood.
      by apply (run_phases_all_successful _ _ _ _ _ _ Hrun).
    + rewrite (while_turn_failed _ _ _ _ _ _ _ _ Hrun).
      destruct (is_no_retry_block b) eqn:Hno.
      * by rewrite on_block_failure_no_retry by done.
      * destruct (decide (effective_max_retries b - S r + 1 < effective_max_retries b)).
        -- rewrite on_block_failure_retry by done. intros Hloop Hgood.
           apply (IH _ Hloop). by apply (retry_state_all_successful t _ _ _ st false).
        -- by rewrite on_block_failure_exhausted by done.
Qed.

Lemma run_blocks_all_successful t (blocks : list (string * list string)) st st' :
  run_blocks t blocks st = (Return tt, st') ->
  all_successful st -> all_successful st'.
Proof.
  revert st. induction blocks as [|[b phases] rest IH]; intros st.
  - simpl. by intros [= <-].
  - destruct (run_block t (b, phases) st) as [[[]|e] st1] eqn:Hblk.
    + rewrite (run_blocks_cons_return _ _ _ _ _ Hblk). intros Hrest Hgood.
      apply (IH _ Hrest). rewrite run_block_eq in Hblk.
      by apply (block_loop_all_successful _ _ _ _ _ _ Hblk).
    + by rewrite (run_blocks_cons_raise _ _ _ _ _ _ Hblk).
Qed.

Lemma failed_phases_zero st :
  all_successful st -> failed_phases (get_workflow_counts st) = 0.
Proof.
  intros Hgood. unfold get_workflow_counts. simpl.
  assert (Hall : Forall (fun r => success r = true)
                   (map snd (map_to_list (results st)))).
  { apply List.Forall_forall. intros r Hr.
    apply in_map_iff in Hr as ([q r'] & <- & Hin).
    apply list_elem_of_In, elem_of_map_to_list in Hin. by apply (Hgood q). }
  induction Hall as [|r rs Hr _ IH]; simpl; [done|]. by rewrite Hr.
Qed.

(** X8.  When [execute_workflow] returns without raising, from a result map that
    held no failed result (an empty one, say), it returns the result map of
    the final state, every result in it is successful, and
    [get_workflow_status] counts no failed phase. *)
Theorem returned_run_has_no_failed_result t st res st' :
  project_template st = Some t ->
  all_successful st ->
  execute_workflow st = (Return res, st') ->
  res = results st' /\
  all_successful st' /\
  exists counts,
    get_workflow_status st' = Some counts /\ failed_phases counts = 0.
Proof.
  intros Ht Hgood Hexec.
  pose proof (template_after_run t st _ st' Ht Hexec) as Ht'.
  revert Hexec. rewrite (execute_workflow_eq t st Ht).
  destruct (run_blocks t _ (workflow_entry t st)) as [[[]|e] st1] eqn:Hrun; [|done].
  intros [= <- <-].
  assert (Hgood1 : all_successful st1).
  { by apply (run_blocks_all_successful _ _ _ _ Hrun). }
  split; [done|]. split; [exact Hgood1|].
  exists (get_workflow_counts st1). split; [|by apply failed_phases_zero].
  unfold get_workflow_status. by rewrite Ht'.
Qed.

(** X9.  [get_workflow_status] answers "No template loaded" only when no
    template is loaded; otherwise its completed and failed counts add up to
    the number of stored results. *)
Theorem workflow_counts_total st :
  match get_workflow_status st with
  | Some counts =>
      completed_phases counts + failed_phases counts = size (results st)
  | None => project_template st = None
  end.
Proof.
  unfold get_workflow_status. destruct (project_template st); [|done].
  unfold get_workflow_counts. simpl.
  rewrite <- (length_map_to_list (results st)).
  rewrite <- (length_map snd (map_to_list (results st))).
  induction (map snd (map_to_list (results st))) as [|r rs IH]; simpl; [done|].
  destruct (success r); simpl; lia.
Qed.

Lemma str_le_total : Total str_le.
Proof. intros a b. apply String.leb_total. Qed.

(** X10.  [get_project_artifacts] lists, in ascending order and without
    repetition, exactly the artifacts of the stored results. *)
Theorem project_artifacts_spec st :
  Sorted str_le (get_project_artifacts st) /\
  NoDup (get_project_artifacts st) /\
  (forall a, In a (get_project_artifacts st) <->
     exists p r, results st !! p = Some r /\ In a (artifacts r)).
Proof.
  unfold get_project_artifacts, sorted. cbv zeta.
  set (all := flat_map _ _).
  split; [apply (@Sorted_merge_sort _ str_le _ str_le_total)|]. split.
  - rewrite merge_sort_Permutation. apply NoDup_elements.
  - intros a. rewrite <- list_elem_of_In, merge_sort_Permutation,
      elem_of_elements, elem_of_list_to_set, list_elem_of_In.
    unfold all. rewrite in_flat_map. split.
    + intros ([p r] & Hin & Ha). exists p, r. split; [|done].
      by apply elem_of_map_to_list, list_elem_of_In.
    + intros (p & r & Hr & Ha). exists (p, r). split; [|done].
      by apply list_elem_of_In, elem_of_map_to_list.
Qed.

(** ** core/orchestrator.py: phases, their information and their tasks *)

Lemma get_phase_info_some t (p : string) :
  In p (BlockPlanner.all_phase_names t) ->
  exists phase_info,
    _get_phase_info t p = Some phase_info /\ phase phase_info = p /\
    In phase_info (workflow_phases t).
Proof.
  unfold _get_phase_info, BlockPlanner.all_phase_names.
  induction (workflow_phases t) as [|ph ps IH]; simpl; [done|].
  destruct (String.eqb (phase ph) p) eqn:Heq.
  - apply String.eqb_eq in Heq. intros _. exists ph. tauto.
  - apply String.eqb_neq in Heq. intros [?|Hin]; [done|].
    destruct (IH Hin) as (phase_info & ? & ? & ?). exists phase_info. tauto.
Qed.

(** X11.  Every phase of every planned block has its phase information: the
    branch of the block loop that skips a phase without information is
    never taken for the blocks the planner makes, in whatever order the
    process lists the catch-all block. *)
Theorem planned_phase_has_info (order : BlockPlanner.SetOrder) t (b : string)
    (phases : list string) (p : string) :
  In (b, phases) (BlockPlanner._define_workflow_blocks order t) ->
  In p phases ->
  exists phase_info, _get_phase_info t p = Some phase_info /\ phase phase_info = p.
Proof.
  intros Hb Hp.
  apply (BlockPlannerFacts.block_member order t b phases p Hb) in Hp as [Hall _].
  destruct (get_phase_info_some t p Hall) as (phase_info & ? & ? & _).
  by exists phase_info.
Qed.

End RunInvariants.

(** ** core/template_loader.py and core/orchestrator.py: tasks *)

Module TaskFacts.

Lemma endswith_refl (k : string) : PyStr.endswith k k = true.
Proof. destruct k; simpl; by rewrite ?String.eqb_refl, ?Ascii.eqb_refl. Qed.

Lemma endswith_app (a k : string) : PyStr.endswith k (a +:+ k) = true.
Proof.
  induction a as [|c a IH]; simpl.
  - apply endswith_refl.
  - rewrite IH. apply orb_true_r.
Qed.

Lemma is_in_In (x : string) (l : list string) :
  TemplateLoader.is_in x l = true <-> In x l.
Proof.
  unfold TemplateLoader.is_in. rewrite existsb_exists. split.
  - intros (y & Hy & Heq). apply String.eqb_eq in Heq. by subst.
  - intros Hx. exists x. split; [done|]. apply String.eqb_refl.
Qed.

Lemma find_task_from_lookup (n : nat) (p : string) (ts : list AgentTask)
    (i : nat) (task : AgentTask) :
  find_task_from n p ts = Some (i, task) ->
  n <= i /\ ts !! (i - n) = Some task /\
  PyStr.endswith ("_" +:+ p) (task_id task) = true.
Proof.
  revert n. induction ts as [|task0 ts IH]; intros n; simpl; [done|].
  destruct (PyStr.endswith _ (task_id task0)) eqn:Hend.
  - intros [= <- <-]. rewrite Nat.sub_diag. split; [lia|]. by split.
  - intros Hfind. destruct (IH _ Hfind) as (Hle & Hlook & Hends).
    split; [lia|]. split; [|done].
    replace (i - n) with (S (i - S n)) by lia. done.
Qed.

Lemma find_task_from_exists (n : nat) (p : string) (ts : list AgentTask)
    (task : AgentTask) :
  In task ts ->
  PyStr.endswith ("_" +:+ p) (task_id task) = true ->
  exists i task', find_task_from n p ts = Some (i, task').
Proof.
  revert n. induction ts as [|task0 ts IH]; intros n; simpl; [done|].
  intros [->|Hin] Hend.
  - rewrite Hend. eauto.
  - destruct (PyStr.endswith _ (task_id task0)); [eauto|]. by apply IH.
Qed.

Lemma dependency_roles_some (roles deps : list string) :
  (forall r, In r roles -> AgentRole_of_value r <> None) ->
  exists rs, TemplateLoader.dependency_roles roles deps = Some rs.
Proof.
  intros Hroles. induction deps as [|dep deps [rs IH]]; simpl; [by eexists|].
  destruct (TemplateLoader.is_in dep roles) eqn:Hin; [|by eexists].
  apply is_in_In in Hin. specialize (Hroles dep Hin).
  destruct (AgentRole_of_value dep); [|done]. rewrite IH. by eexists.
Qed.

(** X12.  When every available role is one of the five [AgentRole] values,
    [create_agent_tasks] raises no [ValueError]: it returns its tasks. *)
Theorem create_agent_tasks_returns (roles : list string) (t : ProjectTemplate) :
  (forall r, In r roles -> AgentRole_of_value r <> None) ->
  exists ts logs, TemplateLoader.create_agent_tasks roles t = Some (ts, logs).
Proof.
  intros Hroles. unfold TemplateLoader.create_agent_tasks.
  induction (workflow_phases t) as [|ph rest (ts & logs & IH)]; simpl.
  - by eexists _, _.
  - rewrite IH.
    destruct (tasks t !! phase ph); [|by eexists _, _].
    destruct (negb _); [by eexists _, _|].
    destruct (AgentRole_of_value (agent ph)); [|by eexists _, _].
    destruct (dependency_roles_some roles (dependencies ph) Hroles) as [rs ->].
    by eexists _, _.
Qed.

(** X13.  A phase for which [create_agent_tasks] built a task is found by
    [_find_task_for_phase] in the compiled task list, and the task found has
    an identifier ending in "_" and the phase name. *)
Theorem compiled_phase_is_found (roles : list string) (t : ProjectTemplate)
    (ts : list AgentTask) (logs : list TemplateLoader.LoaderLog)
    (ph : PhaseInfo) :
  TemplateLoader.create_agent_tasks roles t = Some (ts, logs) ->
  In ph (workflow_phases t) ->
  TemplateLoader.compilable roles (tasks t) ph = true ->
  exists i task,
    find_task_from 0 (phase ph) ts = Some (i, task) /\
    ts !! i = Some task /\
    PyStr.endswith ("_" +:+ phase ph) (task_id task) = true.
Proof.
  intros Hcreate Hph Hcomp.
  destruct (create_tasks_spec _ _ _ _ _ Hcreate) as [Hids _].
  assert (Hid : In (TemplateLoader.task_id_of ph) (map task_id ts)).
  { rewrite Hids. apply in_map. apply filter_In. by split. }
  apply in_map_iff in Hid as (task & Htid & Hin).
  assert (Hend : PyStr.endswith ("_" +:+ phase ph) (task_id task) = true).
  { rewrite Htid. unfold TemplateLoader.task_id_of. apply endswith_app. }
  destruct (find_task_from_exists 0 (phase ph) ts task Hin Hend) as (i & task' & Hfind).
  exists i, task'. split; [done|].
  destruct (find_task_from_lookup _ _ _ _ _ Hfind) as (_ & Hlook & Hends).
  by rewrite Nat.sub_0_r in Hlook.
Qed.

End TaskFacts.

(** ** core/orchestrator.py: what phase execution changes *)

Section PhaseExecution.

Context `{WorldOps World}.

Implicit Types (st : Orchestrator World) (t : ProjectTemplate).

(** The task as [_execute_phase] hands it to the agent: its context files
    reduced to those that exist. *)
Lemma execute_phase_outcome (phase_name : string) (i : nat) (task : AgentTask) st :
  let offered :=
    {| task_role := task_role task; task_prompt := task_prompt task;
       task_id := task_id task; task_dependencies := task_dependencies task;
       task_output_file := task_output_file task;
       task_context_files :=
         _get_available_context_files (world st) (task_context_files task) |} in
  let r0 := fst (execute_task (task_role task) offered (world st)) in
  let st' := snd (_execute_phase phase_name i task st) in
  workflow_tasks st' = <[i := offered]> (workflow_tasks st) /\
  exists r,
    results st' !! phase_name = Some r /\
    (r = r0 \/ exists reason, r = set_retry_required reason r0) /\
    (success r0 = false ->
     r = set_retry_required
           ("Phase execution failed: " +:+ str_of_optional (errors r0)) r0) /\
    (success r0 = true -> _is_testing_phase phase_name = false ->
     existsb (String.eqb (PyStr.lower phase_name)) ["development"; "bug_fixing"]
       = false ->
     r = r0).
Proof.
  cbv zeta. unfold _execute_phase, bind, log, gets, modify. simpl.
  destruct (execute_task _ _ _) as [result w'] eqn:Hexec. simpl.
  assert (Hshape : forall (res : gmap string AgentResult) (r : AgentResult),
    (r = result \/ exists reason, r = set_retry_required reason result) ->
    (success result = false ->
     r = set_retry_required
           ("Phase execution failed: " +:+ str_of_optional (errors result)) result) ->
    (success result = true -> _is_testing_phase phase_name = false ->
     existsb (String.eqb (PyStr.lower phase_name)) ["development"; "bug_fixing"]
       = false -> r = result) ->
    exists r', <[phase_name := r]> res !! phase_name = Some r' /\
      (r' = result \/ exists reason, r' = set_retry_required reason result) /\
      (success result = false ->
       r' = set_retry_required
             ("Phase execution failed: " +:+ str_of_optional (errors result)) result) /\
      (success result = true -> _is_testing_phase phase_name = false ->
       existsb (String.eqb (PyStr.lower phase_name)) ["development"; "bug_fixing"]
         = false -> r' = result)).
  { intros res r H1 H2 H3. exists r. by rewrite lookup_insert_eq. }
  destruct (success result) eqn:Hs; simpl.
  - destruct (_is_testing_phase phase_name) eqn:Htest.
    + destruct (_analyze_test_results w' result) as [|bug bugs]; simpl;
        (split; [done|]); apply Hshape; try done; try (by left);
        try (right; by eexists).
    + destruct (existsb (String.eqb (PyStr.lower phase_name))
                  ["development"; "bug_fixing"]) eqn:Hdev; simpl in *;
        rewrite Hdev; simpl.
      * destruct (_validate_development_result w'); simpl;
          (split; [done|]); apply Hshape; try done; try (by left);
          try (right; by eexists).
      * split; [done|]. apply Hshape; try done. by left.
  - split; [done|]. apply Hshape; try done. right. by eexists.
Qed.

(** X14.  [_execute_phase] stores the agent's result as the agent returned it, at
    most marked as requiring a retry: a failed result is always marked, with
    the agent's error in the reason, and a successful result of a phase that
    is neither a testing phase nor "development" or "bug_fixing" is stored
    unmarked.  Success flag, output, artifacts and errors are never changed. *)
Theorem execute_phase_is_advisory (phase_name : string) (i : nat)
    (task : AgentTask) st :
  let offered :=
    {| task_role := task_role task; task_prompt := task_prompt task;
       task_id := task_id task; task_dependencies := task_dependencies task;
       task_output_file := task_output_file task;
       task_context_files :=
         _get_available_context_files (world st) (task_context_files task) |} in
  let r0 := fst (execute_task (task_role task) offered (world st)) in
  exists r,
    results (snd (_execute_phase phase_name i task st)) !! phase_name = Some r /\
    success r = success r0 /\ output r = output r0 /\
    artifacts r = artifacts r0 /\ errors r = errors r0 /\ role r = role r0 /\
    (success r0 = false ->
     requires_retry r = true /\
     retry_reason r =
       Some ("Phase execution failed: " +:+ str_of_optional (errors r0))) /\
    (success r0 = true -> _is_testing_phase phase_name = false ->
     existsb (String.eqb (PyStr.lower phase_name)) ["development"; "bug_fixing"]
       = false ->
     r = r0).
Proof.
  cbv zeta.
  destruct (execute_phase_outcome phase_name i task st)
    as (_ & r & Hr & Hshape & Hfail & Hplain).
  set (r0 := fst (execute_task _ _ _)) in *.
  exists r. split; [done|].
  assert (Hsame : success r = success r0 /\ output r = output r0 /\
                  artifacts r = artifacts r0 /\ errors r = errors r0 /\
                  role r = role r0).
  { destruct Hshape as [->|[reason ->]]; done. }
  destruct Hsame as (Hs & Ho & Ha & He & Hrole).
  split; [done|]. split; [done|]. split; [done|]. split; [done|].
  split; [done|]. split; [|exact Hplain].
  intros Hf. by rewrite (Hfail Hf).
Qed.

Lemma filter_sublist (f : string -> bool) (l : list string) :
  sublist (List.filter f l) l.
Proof.
  induction l as [|x l IH]; simpl; [constructor|].
  destruct (f x); by constructor.
Qed.

Lemma narrowed_refl (a : AgentTask) : narrowed a a.
Proof. exists (task_context_files a). split; [done|]. by destruct a. Qed.

Lemma narrowed_trans (a b c : AgentTask) :
  narrowed a b -> narrowed b c -> narrowed a c.
Proof.
  intros (files & Hsub & ->) (files' & Hsub' & ->). simpl in *.
  exists files'. split; [by etrans | done].
Qed.

Lemma tasks_narrowed_refl (l : list AgentTask) : Forall2 narrowed l l.
Proof. induction l; constructor; [apply narrowed_refl | done]. Qed.

Lemma tasks_narrowed_trans (l1 l2 l3 : list AgentTask) :
  Forall2 narrowed l1 l2 -> Forall2 narrowed l2 l3 -> Forall2 narrowed l1 l3.
Proof. apply Forall2_trans. apply narrowed_trans. Qed.

Lemma execute_phase_narrows (phase_name : string) (i : nat) (task : AgentTask) st :
  workflow_tasks st !! i = Some task ->
  Forall2 narrowed (workflow_tasks st)
    (workflow_tasks (snd (_execute_phase phase_name i task st))).
Proof.
  intros Hlook.
  destruct (execute_phase_outcome phase_name i task st) as (-> & _).
  rewrite <- (list_insert_id (workflow_tasks st) i task Hlook) at 1.
  apply Forall2_insert; [apply tasks_narrowed_refl|].
  eexists. split; [|reflexivity]. apply filter_sublist.
Qed.

Lemma run_phases_narrows t (b : string) (phases : list string) st :
  Forall2 narrowed (workflow_tasks st)
    (workflow_tasks (snd (run_phases t b phases st))).
Proof.
  revert st. induction phases as [|p rest IH]; intros st.
  - apply tasks_narrowed_refl.
  - rewrite run_phases_cons.
    destruct (_get_phase_info t p) as [phase_info|]; [|apply IH].
    destruct (deps_satisfied _ _); [|apply (IH (emit (EvSkipUnmet p) st))].
    destruct (find_task_from 0 p (workflow_tasks st)) as [[i task]|] eqn:Hfind;
      [|apply tasks_narrowed_refl].
    destruct (TaskFacts.find_task_from_lookup _ _ _ _ _ Hfind) as (_ & Hlook & _).
    rewrite Nat.sub_0_r in Hlook.
    pose proof (execute_phase_narrows p i task st Hlook) as Hstep.
    cbv zeta. destruct (results _ !! p) as [r|]; [|exact Hstep].
    destruct (success r); [|exact Hstep].
    eapply tasks_narrowed_trans; [exact Hstep | apply IH].
Qed.

Lemma block_loop_narrows t (b : string) (phases : list string) (remaining : nat) st :
  Forall2 narrowed (workflow_tasks st)
    (workflow_tasks (snd (block_loop t b phases remaining st))).
Proof.
  revert st. induction remaining as [|r IH]; intros st.
  - apply tasks_narrowed_refl.
  - rewrite block_loop_S.
    pose proof (run_phases_narrows t b phases st) as Hstep.
    destruct (run_phases_facts t b phases st) as (ok & fp & st1 & evs & Hrun & _).
    rewrite Hrun in Hstep. simpl in Hstep.
    destruct ok.
    + by rewrite (while_turn_succeeded _ _ _ _ _ _ _ _ Hrun).
    + rewrite (while_turn_failed _ _ _ _ _ _ _ _ Hrun).
      destruct (is_no_retry_block b) eqn:Hno.
      * by rewrite on_block_failure_no_retry by done.
      * destruct (decide (effective_max_retries b - S r + 1 < effective_max_retries b)).
        -- rewrite on_block_failure_retry by done.
           eapply tasks_narrowed_trans; [exact Hstep|]. apply (IH (retry_state _ _ _ _ _)).
        -- by rewrite on_block_failure_exhausted by done.
Qed.

Lemma run_blocks_narrows t (blocks : list (string * list string)) st :
  Forall2 narrowed (workflow_tasks st)
    (workflow_tasks (snd (run_blocks t blocks st))).
Proof.
  revert st. induction blocks as [|[b phases] rest IH]; intros st.
  - apply tasks_narrowed_refl.
  - pose proof (block_loop_narrows t b phases (effective_max_retries b)
                  (emit (EvBlockStart b) st)) as Hstep.
    rewrite <- run_block_eq in Hstep.
    destruct (run_block t (b, phases) st) as [[[]|e] st1] eqn:Hblk.
    + rewrite (run_blocks_cons_return _ _ _ _ _ Hblk).
      eapply tasks_narrowed_trans; [exact Hstep | apply IH].
    + by rewrite (run_blocks_cons_raise _ _ _ _ _ _ Hblk).
Qed.

(** X15.  A run of [execute_workflow] changes the compiled tasks in one way only:
    a task loses the context files that did not exist when it was executed,
    and never gets them back.  The tasks keep their number, order, roles,
    identifiers, prompts and dependencies. *)
Theorem execute_workflow_narrows_tasks t st :
  project_template st = Some t ->
  Forall2 narrowed (workflow_tasks st)
    (workflow_tasks (snd (execute_workflow st))).
Proof.
  intros Ht. rewrite (execute_workflow_eq t st Ht).
  pose proof (run_blocks_narrows t (BlockPlanner._define_workflow_blocks set_order t)
                (workflow_entry t st)) as Hrun.
  by destruct (run_blocks t _ (workflow_entry t st)) as [[[]|e] st1].
Qed.

End PhaseExecution.

(** ** core/agent.py: artifacts and context files *)

Module PySliceFacts.
Import PySlice.

Lemma length_app (a b : string) :
  String.length (a +:+ b) = String.length a + String.length b.
Proof. induction a as [|c a IH]; simpl; [done|]. by rewrite IH. Qed.

Lemma length_take (n : nat) (s : string) :
  String.length (take n s) = Nat.min n (String.length s).
Proof.
  revert s. induction n as [|n IH]; intros [|c s]; simpl; try done.
  by rewrite IH.
Qed.

Lemma endswith_tail (k : string) (c : ascii) (s : string) :
  PyStr.endswith k s = true -> PyStr.endswith k (String c s) = true.
Proof. intros Hk. simpl. rewrite Hk. apply orb_true_r. Qed.

Lemma endswith_drop (n : nat) (s : string) : PyStr.endswith (drop n s) s = true.
Proof.
  revert s. induction n as [|n IH]; intros s.
  - apply TaskFacts.endswith_refl.
  - destruct s as [|c s]; [done|]. cbn [drop]. apply endswith_tail, IH.
Qed.

Lemma endswith_basename (s : string) : PyStr.endswith (basename s) s = true.
Proof.
  induction s as [|c s IH]; [done|]. cbn [basename].
  destruct (PyStr.contains "/" s).
  - by apply endswith_tail.
  - destruct (Ascii.eqb c "/").
    + apply endswith_tail, TaskFacts.endswith_refl.
    + apply TaskFacts.endswith_refl.
Qed.

Lemma endswith_trans (a b c : string) :
  PyStr.endswith a b = true -> PyStr.endswith b c = true ->
  PyStr.endswith a c = true.
Proof.
  intros Hab. induction c as [|x c IH]; simpl.
  - rewrite orb_false_r. intros Heq%String.eqb_eq. by subst.
  - intros [Heq%String.eqb_eq|Hc]%orb_true_iff.
    + by subst.
    + rewrite (IH Hc). apply orb_true_r.
Qed.

Lemma endswith_suffix (path : string) :
  suffix path <> EmptyString -> PyStr.endswith (suffix path) path = true.
Proof.
  unfold suffix. cbv zeta.
  destruct (rfind_dot (basename path)) as [i|]; [|done].
  destruct (_ && _); [|done]. intros _.
  apply (endswith_trans _ (basename path)); [apply endswith_drop|].
  apply endswith_basename.
Qed.

Lemma str_in_In (x : string) (l : list string) : str_in x l = true <-> In x l.
Proof.
  unfold str_in. rewrite existsb_exists. split.
  - intros (y & Hy & Heq). apply String.eqb_eq in Heq. by subst.
  - intros Hx. exists x. split; [done|]. apply String.eqb_refl.
Qed.

Lemma any_in_false (ks : list string) (s : string) :
  PyStr.any_in ks s = false <-> forall k, In k ks -> PyStr.contains k s = false.
Proof.
  unfold PyStr.any_in. induction ks as [|k ks IH]; simpl.
  - split; [intros _ k [] | done].
  - rewrite orb_false_iff, IH. split.
    + intros [Hk Hks] k' [<-|Hin]; auto.
    + intros Hall. split; [apply Hall; by left|]. intros k' Hk'. apply Hall. by right.
Qed.

End PySliceFacts.

(** X16.  [_detect_created_files] returns, in ascending order, exactly the listed
    paths that contain none of the ignore patterns and whose suffix is an
    allowed extension; so no returned path contains ".git" or
    "node_modules", and every returned path ends with an allowed extension. *)
Theorem detect_created_files_spec (listing : list string) :
  let found := AgentFiles._detect_created_files listing in
  Sorted str_le found /\
  (forall p, In p found <-> In p listing /\ AgentFiles.is_artifact p = true) /\
  (forall p, In p found ->
     (forall pattern, In pattern AgentFiles.IGNORE_PATTERNS ->
        PyStr.contains pattern p = false) /\
     exists ext, In ext AgentFiles.ARTIFACT_EXTENSIONS /\
                 PyStr.endswith ext p = true).
Proof.
  cbv zeta. unfold AgentFiles._detect_created_files, sorted.
  assert (Hmem : forall p,
    In p (merge_sort str_le (List.filter AgentFiles.is_artifact listing)) <->
    In p listing /\ AgentFiles.is_artifact p = true).
  { intros p. rewrite <- list_elem_of_In, merge_sort_Permutation, list_elem_of_In.
    apply filter_In. }
  split; [apply (@Sorted_merge_sort _ str_le _ str_le_total)|].
  split; [exact Hmem|].
  intros p [_ Hart]%Hmem. unfold AgentFiles.is_artifact in Hart.
  apply andb_true_iff in Hart as [Hign Hext].
  apply negb_true_iff in Hign. split.
  - by apply PySliceFacts.any_in_false.
  - apply PySliceFacts.str_in_In in Hext.
    exists (PySlice.suffix p). split; [done|].
    apply PySliceFacts.endswith_suffix. intros Hempty.
    rewrite Hempty in Hext. simpl in Hext.
    repeat (destruct Hext as [Hext|Hext]; [discriminate Hext|]). done.
Qed.

Section LoadingFacts.

Context `{WorldOps World}.

Lemma clipped_length (total_size : nat) (content : string) :
  total_size < AgentFiles.max_total_size ->
  total_size + String.length (AgentFiles.clipped total_size content)
  <= AgentFiles.max_total_size + String.length AgentFiles.truncated.
Proof.
  intros Hlt. unfold AgentFiles.clipped. cbv zeta.
  set (c1 := if Nat.ltb AgentFiles.max_file_size (String.length content)
             then _ else _).
  destruct (Nat.ltb_spec (AgentFiles.max_total_size - total_size) (String.length c1)).
  - rewrite PySliceFacts.length_app, PySliceFacts.length_take. lia.
  - lia.
Qed.

Lemma load_loop_spec (w : World) (context_files : list string)
    (context_content : string) (available_files : list string) (total_size : nat) :
  total_size <= AgentFiles.max_total_size + String.length AgentFiles.truncated ->
  exists content loaded total,
    AgentFiles.load_loop w context_files context_content available_files total_size
    = (content, available_files ++ loaded, total) /\
    total <= AgentFiles.max_total_size + String.length AgentFiles.truncated /\
    sublist loaded context_files /\
    Forall (fun f => path_exists w f = true /\ is_Some (read_text w f)) loaded.
Proof.
  revert context_content available_files total_size.
  induction context_files as [|file_path rest IH];
    intros context_content available_files total_size Hbound.
  - exists context_content, [], total_size. rewrite app_nil_r. by repeat split.
  - cbn [AgentFiles.load_loop].
    destruct (Nat.leb_spec AgentFiles.max_total_size total_size) as [Hfull|Hroom].
    { exists context_content, [], total_size. rewrite app_nil_r.
      repeat split; try done. apply sublist_nil_l. }
    destruct (path_exists w file_path) eqn:Hexists.
    2:{ destruct (IH context_content available_files total_size Hbound)
          as (c & loaded & total & -> & Htotal & Hsub & Hall).
        exists c, loaded, total. repeat split; try done. by constructor. }
    destruct (read_text w file_path) as [text|] eqn:Hread.
    2:{ destruct (IH context_content available_files total_size Hbound)
          as (c & loaded & total & -> & Htotal & Hsub & Hall).
        exists c, loaded, total. repeat split; try done. by constructor. }
    cbv zeta.
    match goal with
    | |- context [AgentFiles.load_loop w rest ?cc ?av ?tot] =>
        destruct (IH cc av tot) as (c & loaded & total & -> & Htotal & Hsub & Hall)
    end.
    { by apply clipped_length. }
    exists c, (file_path :: loaded), total.
    rewrite <- app_assoc. repeat split; try done.
    + by constructor.
    + constructor; [|done]. rewrite Hread. by split.
Qed.

(** X17.  [_load_context_files] offers files of the task's list only, in the
    list's order, each of them existing and readable; and the sizes it adds
    up stay within the total limit plus the length of one truncation mark. *)
Theorem load_context_files_spec (w : World) (context_files : list string) :
  let state := AgentFiles.load_loop w context_files EmptyString [] 0 in
  snd (AgentFiles._load_context_files w context_files) = snd (fst state) /\
  sublist (snd (fst state)) context_files /\
  Forall (fun f => path_exists w f = true /\ is_Some (read_text w f))
    (snd (fst state)) /\
  snd state <= AgentFiles.max_total_size + String.length AgentFiles.truncated.
Proof.
  cbv zeta. unfold AgentFiles._load_context_files.
  destruct (load_loop_spec w context_files EmptyString [] 0)
    as (c & loaded & total & -> & Htotal & Hsub & Hall); [lia|].
  simpl. by repeat split.
Qed.

End LoadingFacts.

(** ** core/template_loader.py: the timeout *)

Module ComplexityFacts.
Import Complexity.

Lemma map_fold_grows (f : TaskInfo -> nat) (m : gmap string TaskInfo) (init : nat) :
  init <= map_fold (fun _ task acc => acc + f task) init m.
Proof.
  induction m as [|p task m Hp Hfold IH] using map_first_key_ind.
  - by rewrite map_fold_empty.
  - rewrite map_fold_insert_first_key by done. lia.
Qed.

Lemma bonus_grows (stack : list string) (init : nat) :
  init <= foldl (fun acc tech =>
                   if PyStr.any_in complex_techs (PyStr.lower tech)
                   then acc + 30 else acc) init stack.
Proof.
  revert init. induction stack as [|tech stack IH]; intros init; [done|].
  cbn [foldl]. destruct (PyStr.any_in complex_techs (PyStr.lower tech)).
  - etrans; [|apply IH]. lia.
  - apply IH.
Qed.

Lemma score_lower_bound (stack : list string) (t : ProjectTemplate) :
  length stack * 10 + length (workflow_phases t) * 20
  <= calculate_complexity_score stack t.
Proof.
  unfold calculate_complexity_score. cbv zeta.
  etrans; [|apply bonus_grows].
  etrans; [|apply (map_fold_grows (fun task => length (info_context_files task) * 3))].
  apply (map_fold_grows (fun task => length (info_output_files task) * 5)).
Qed.

Lemma timeout_for_monotone (c1 c2 base : nat) :
  c1 <= c2 -> timeout_for c1 base <= timeout_for c2 base.
Proof.
  intros Hle. unfold timeout_for.
  repeat match goal with
         | |- context [Nat.leb ?a ?b] => destruct (Nat.leb_spec a b)
         end; lia.
Qed.

(** X18.  The timeout is the base timeout times 1, 2, 3 or 6, it does not decrease
    when the complexity grows, and a template of more than ten phases gets
    six times the base timeout. *)
Theorem calculate_timeout_spec (stack : list string) (t : ProjectTemplate)
    (base : nat) :
  In (calculate_timeout stack t base) [base; base * 2; base * 3; base * 6] /\
  (forall c1 c2, c1 <= c2 -> timeout_for c1 base <= timeout_for c2 base) /\
  (10 < length (workflow_phases t) -> calculate_timeout stack t base = base * 6).
Proof.
  split; [|split].
  - unfold calculate_timeout, timeout_for.
    repeat match goal with
           | |- context [Nat.leb ?a ?b] => destruct (Nat.leb a b)
           end; simpl; tauto.
  - intros c1 c2. apply timeout_for_monotone.
  - intros Hphases. unfold calculate_timeout, timeout_for.
    pose proof (score_lower_bound stack t) as Hscore.
    repeat match goal with
           | |- context [Nat.leb ?a ?b] => destruct (Nat.leb_spec a b)
           end; lia.
Qed.

End ComplexityFacts.

(** ** core/template_loader.py: the search for circular dependencies *)

Module ValidatorFacts.
Import Validator.

Lemma has_circular_dependency_S (fuel : nat) (graph : gmap string (list string))
    (node : string) (visited : gset string) :
  _has_circular_dependency (S fuel) graph node visited =
  if decide (node ∈ visited) then Some true
  else each_dependency
         (fun d => _has_circular_dependency fuel graph d ({[node]} ∪ visited))
         graph (default [] (graph !! node)).
Proof. reflexivity. Qed.

Lemma each_dependency_some (search : string -> option bool)
    (graph : gmap string (list string)) (deps : list string) :
  (forall d, In d deps -> is_Some (graph !! d) -> is_Some (search d)) ->
  is_Some (each_dependency search graph deps).
Proof.
  induction deps as [|d deps IH]; intros Hall; simpl; [by eexists|].
  destruct (graph !! d) eqn:Hd.
  - destruct (Hall d) as [[] Hs]; [by left | by eexists | |]; rewrite Hs.
    + by eexists.
    + apply IH. intros d' Hd'. apply Hall. by right.
  - apply IH. intros d' Hd'. apply Hall. by right.
Qed.

Lemma each_dependency_true (search : string -> option bool)
    (graph : gmap string (list string)) (deps : list string) (d : string) :
  (forall d', In d' deps -> is_Some (graph !! d') -> is_Some (search d')) ->
  In d deps -> is_Some (graph !! d) -> search d = Some true ->
  each_dependency search graph deps = Some true.
Proof.
  induction deps as [|d0 deps IH]; intros Hall Hin Hd Hs; simpl; [done|].
  destruct (graph !! d0) eqn:Hd0.
  - destruct (Hall d0) as [[] Hs0]; [by left | by eexists | |]; rewrite Hs0; [done|].
    destruct Hin as [->|Hin]; [congruence|].
    apply IH; try done. intros d' Hd'. apply Hall. by right.
  - destruct Hin as [->|Hin].
    + rewrite Hd0 in Hd. by destruct Hd.
    + apply IH; try done. intros d' Hd'. apply Hall. by right.
Qed.

Lemma each_dependency_true_inv (search : string -> option bool)
    (graph : gmap string (list string)) (deps : list string) :
  each_dependency search graph deps = Some true ->
  exists d, In d deps /\ is_Some (graph !! d) /\ search d = Some true.
Proof.
  induction deps as [|d0 deps IH]; simpl; [done|].
  destruct (graph !! d0) eqn:Hd0.
  - destruct (search d0) as [[]|] eqn:Hs0.
    + intros _. exists d0. split; [by left|]. split; [by eexists | done].
    + intros (d & Hin & Hrest)%IH. exists d. split; [by right | done].
    + done.
  - intros (d & Hin & Hrest)%IH. exists d. split; [by right | done].
Qed.

Lemma unvisited_shrinks (graph : gmap string (list string)) (node : string)
    (visited : gset string) (deps : list string) :
  graph !! node = Some deps -> node ∉ visited ->
  size (dom graph ∖ ({[node]} ∪ visited)) < size (dom graph ∖ visited).
Proof.
  intros Hnode Hvis. apply subset_size. split.
  - set_solver.
  - intros Hsub. assert (Hin : node ∈ dom graph ∖ visited).
    { apply elem_of_difference. split; [|done]. apply elem_of_dom. by eexists. }
    apply Hsub in Hin. set_solver.
Qed.

(** The search returns when its fuel exceeds the number of nodes that are
    not yet visited. *)
Lemma has_circular_dependency_returns (fuel : nat)
    (graph : gmap string (list string)) (node : string) (visited : gset string) :
  size (dom graph ∖ visited) < fuel ->
  is_Some (_has_circular_dependency fuel graph node visited).
Proof.
  revert node visited. induction fuel as [|fuel IH]; intros node visited Hsize; [lia|].
  rewrite has_circular_dependency_S.
  destruct (decide (node ∈ visited)) as [|Hvis]; [by eexists|].
  destruct (graph !! node) as [deps|] eqn:Hnode; simpl; [|by eexists].
  apply each_dependency_some. intros d _ _. apply IH.
  pose proof (unvisited_shrinks graph node visited deps Hnode Hvis). lia.
Qed.

Lemma has_circular_dependency_sound (fuel : nat)
    (graph : gmap string (list string)) (node : string) (visited : gset string) :
  _has_circular_dependency fuel graph node visited = Some true ->
  exists l, chain graph (node :: l) /\ ~ fresh_chain visited (node :: l).
Proof.
  revert node visited. induction fuel as [|fuel IH]; intros node visited; [done|].
  rewrite has_circular_dependency_S.
  destruct (decide (node ∈ visited)) as [Hvis|Hvis].
  - intros _. exists []. split; [done|]. intros [_ Hfresh].
    apply (Hfresh node); [by left | done].
  - destruct (graph !! node) as [deps|] eqn:Hnode; simpl; [|done].
    intros (d & Hin & Hd & Hsearch)%each_dependency_true_inv.
    destruct (IH _ _ Hsearch) as (l & Hchain & Hbad).
    exists (d :: l). split.
    + split; [|done]. by exists deps.
    + intros [Hnodup Hfresh]. apply Hbad. split.
      * by inversion Hnodup.
      * intros x Hx. apply not_elem_of_union. split.
        -- apply not_elem_of_singleton. intros ->.
           inversion Hnodup as [|? ? Hnotin _]; subst. by apply Hnotin, list_elem_of_In.
        -- apply Hfresh. by right.
Qed.

Lemma has_circular_dependency_complete (l : list string) (fuel : nat)
    (graph : gmap string (list string)) (node : string) (visited : gset string) :
  chain graph (node :: l) -> ~ fresh_chain visited (node :: l) ->
  size (dom graph ∖ visited) < fuel ->
  _has_circular_dependency fuel graph node visited = Some true.
Proof.
  revert fuel node visited.
  induction l as [|d l IH]; intros fuel node visited Hchain Hbad Hsize;
    (destruct fuel as [|fuel]; [lia|]); rewrite has_circular_dependency_S;
    (destruct (decide (node ∈ visited)) as [|Hvis]; [done|]).
  - destruct Hbad. split; [apply NoDup_singleton|].
    by intros x [<-|[]].
  - destruct Hchain as [(deps & Hnode & Hin & Hd) Hchain].
    rewrite Hnode. simpl.
    pose proof (unvisited_shrinks graph node visited deps Hnode Hvis) as Hshrink.
    apply (each_dependency_true _ _ _ d); try done.
    + intros d' _ _. apply has_circular_dependency_returns. lia.
    + apply IH; [done| |lia].
      intros [Hnodup Hfresh]. apply Hbad. split.
      * constructor; [|done]. rewrite list_elem_of_In. intros Hx.
        apply (Hfresh node Hx). set_solver.
      * intros x [<-|Hx]; [done|]. specialize (Hfresh x Hx). set_solver.
Qed.

(** From a node, with no node visited yet and one more level of recursion
    than the graph has nodes, the search returns, and it reports a cycle
    exactly when some chain of dependencies from the node passes twice
    through the same phase. *)
Lemma search_answer (graph : gmap string (list string))
    (node : string) :
  exists answer : bool,
    _has_circular_dependency (S (size graph)) graph node ∅ = Some answer /\
    (answer = true <-> exists l, chain graph (node :: l) /\ ~ NoDup (node :: l)).
Proof.
  assert (Hsize : size (dom graph ∖ (∅ : gset string)) < S (size graph)).
  { rewrite difference_empty_L, size_dom. lia. }
  destruct (has_circular_dependency_returns _ graph node ∅ Hsize) as [answer Hanswer].
  exists answer. split; [done|]. split.
  - intros ->. destruct (has_circular_dependency_sound _ _ _ _ Hanswer)
      as (l & Hchain & Hbad).
    exists l. split; [done|]. intros Hnodup. apply Hbad. split; [done|]. set_solver.
  - intros (l & Hchain & Hdup).
    assert (Htrue : _has_circular_dependency (S (size graph)) graph node ∅ = Some true).
    { apply (has_circular_dependency_complete l); [done| |done].
      intros [Hnodup _]. by apply Hdup. }
    congruence.
Qed.

Lemma in_first_occurrences (seen : gset string) (l : list string) (p : string) :
  In p (first_occurrences seen l) <-> In p l /\ p ∉ seen.
Proof.
  revert seen. induction l as [|x l IH]; intros seen; simpl; [tauto|].
  destruct (decide (x ∈ seen)) as [Hseen|Hnew].
  - rewrite IH. split; [tauto|]. intros [[->|?] ?]; tauto.
  - simpl. rewrite IH. split.
    + intros [->|[? ?]]; [tauto|]. split; [tauto|set_solver].
    + intros [[->|Hin] Hp]; [by left|].
      destruct (decide (x = p)) as [->|Hne]; [by left|]. right. split; [done|set_solver].
Qed.

Lemma cycle_errors_spec (fuel : nat) (graph : gmap string (list string))
    (names : list string) :
  (forall p, is_Some (_has_circular_dependency fuel graph p ∅)) ->
  exists errors,
    cycle_errors fuel graph names = Some errors /\
    (forall p, ~ In (NoTaskDefinition p) errors) /\
    (forall p, In (CircularDependency p) errors <->
       In p names /\ _has_circular_dependency fuel graph p ∅ = Some true).
Proof.
  intros Hreturns. induction names as [|n names IH]; simpl.
  - exists []. split; [done|]. split; [by intros p []|].
    intros p. split; [intros [] | intros [[] _]].
  - destruct IH as (errors & -> & Hno & Hcyc).
    destruct (Hreturns n) as [[] Hn]; rewrite Hn.
    + eexists. split; [done|]. split.
      * intros p [?|?]; [done | by apply (Hno p)].
      * intros p. simpl. rewrite Hcyc. split.
        -- intros [[= <-]|[? ?]]; tauto.
        -- intros [[->|?] ?]; tauto.
    + exists errors. split; [done|]. split; [done|].
      intros p. rewrite Hcyc. split; [tauto|].
      intros [[->|?] ?]; [congruence | tauto].
Qed.

Lemma dependency_graph_lookup (phases : list PhaseInfo)
    (graph : gmap string (list string)) (a : string) (deps : list string) :
  foldl (fun g ph => <[phase ph := dependencies ph]> g) graph phases !! a = Some deps ->
  graph !! a = Some deps \/
  exists ph, In ph phases /\ phase ph = a /\ dependencies ph = deps.
Proof.
  revert graph. induction phases as [|ph phases IH]; intros graph; simpl; [by left|].
  intros [Hg|(ph' & ? & ? & ?)]%IH.
  - destruct (decide (phase ph = a)) as [Heq|Hne].
    + rewrite <- Heq, lookup_insert_eq in Hg. injection Hg as <-.
      right. exists ph. tauto.
    + rewrite lookup_insert_ne in Hg by done. by left.
  - right. exists ph'. tauto.
Qed.

Lemma dependency_graph_is_Some (phases : list PhaseInfo)
    (graph : gmap string (list string)) (b : string) :
  is_Some (foldl (fun g ph => <[phase ph := dependencies ph]> g) graph phases !! b)
  <-> is_Some (graph !! b) \/ In b (map phase phases).
Proof.
  revert graph. induction phases as [|ph phases IH]; intros graph; simpl; [tauto|].
  rewrite IH. destruct (decide (phase ph = b)) as [<-|Hne].
  - rewrite lookup_insert_eq. split; [intros _; right; by left | intros _; left; by eexists].
  - rewrite lookup_insert_ne by done. tauto.
Qed.

Lemma cycles_reported (t : ProjectTemplate) :
  exists cycles,
    cycle_errors (S (size (dependency_graph t))) (dependency_graph t)
      (first_occurrences ∅ (map phase (workflow_phases t))) = Some cycles /\
    (forall p, ~ In (NoTaskDefinition p) cycles) /\
    (forall p, In (CircularDependency p) cycles <->
       In p (map phase (workflow_phases t)) /\
       exists l, chain (dependency_graph t) (p :: l) /\ ~ NoDup (p :: l)).
Proof.
  set (graph := dependency_graph t). set (names := map phase (workflow_phases t)).
  destruct (cycle_errors_spec (S (size graph)) graph (first_occurrences ∅ names))
    as (cycles & Heq & Hno & Hcyc).
  { intros p. destruct (search_answer graph p) as (a & -> & _). by eexists. }
  exists cycles. split; [done|]. split; [done|].
  intros p. rewrite Hcyc, in_first_occurrences.
  destruct (search_answer graph p) as (a & Ha & Hiff). split.
  - intros [[Hin _] Htrue]. split; [done|]. apply Hiff. congruence.
  - intros [Hin Hchain]. split; [split; [done|set_solver]|].
    apply Hiff in Hchain. congruence.
Qed.

(** X19.  [validate_workflow_dependencies] always returns.  It reports a missing
    task definition for exactly the phases without an entry in the task
    catalog, and a circular dependency for exactly the phases from which a
    chain of dependencies, each one a phase of the workflow, passes twice
    through the same phase. *)
Theorem validate_workflow_dependencies_spec (t : ProjectTemplate) :
  exists errors,
    validate_workflow_dependencies t = Some errors /\
    (forall p, In (NoTaskDefinition p) errors <->
       In p (map phase (workflow_phases t)) /\ tasks t !! p = None) /\
    (forall p, In (CircularDependency p) errors <->
       In p (map phase (workflow_phases t)) /\
       exists l, chain (dependency_graph t) (p :: l) /\ ~ NoDup (p :: l)).
Proof.
  unfold validate_workflow_dependencies, validate_workflow_dependencies_fuel.
  cbv zeta. destruct (cycles_reported t) as (cycles & -> & Hno & Hcyc).
  eexists. split; [done|]. split.
  - intros p. rewrite in_app_iff, in_map_iff. split.
    + intros [(q & [= ->] & Hq)|Hbad]; [|by destruct (Hno p)].
      apply filter_In in Hq as [Hin Hnone]. split; [done|].
      by destruct (tasks t !! p).
    + intros [Hin Hnone]. left. exists p. split; [done|].
      apply filter_In. split; [done|]. by rewrite Hnone.
  - intros p. rewrite in_app_iff, Hcyc. split; [|by right].
    intros [Hbad|Hp]; [|done]. apply in_map_iff in Hbad as (q & [=] & _).
Qed.

Lemma chain_ranks (graph : gmap string (list string)) (rank : string -> nat)
    (a : string) (l : list string) :
  (forall x y, edge graph x y -> rank y < rank x) ->
  chain graph (a :: l) -> forall x, In x l -> rank x < rank a.
Proof.
  intros Hrank. revert a. induction l as [|b l IH]; intros a Hchain x; [done|].
  destruct Hchain as [Hedge Hchain]. specialize (Hrank a b Hedge).
  intros [<-|Hx]; [done|]. specialize (IH b Hchain x Hx). lia.
Qed.

Lemma ranked_chain_NoDup (graph : gmap string (list string)) (rank : string -> nat)
    (l : list string) :
  (forall x y, edge graph x y -> rank y < rank x) ->
  chain graph l -> NoDup l.
Proof.
  intros Hrank. induction l as [|a l IH]; intros Hchain; [constructor|].
  constructor.
  - rewrite list_elem_of_In. intros Ha.
    pose proof (chain_ranks graph rank a l Hrank Hchain a Ha). lia.
  - apply IH. destruct l; [done|]. by destruct Hchain.
Qed.

(** X20.  When the phases can be numbered so that every dependency of a phase
    that is itself a phase of the workflow has a smaller number than the
    phase (as when each phase depends on earlier phases only),
    [validate_workflow_dependencies] reports no circular dependency. *)
Theorem ordered_workflow_has_no_cycle (t : ProjectTemplate) (rank : string -> nat) :
  (forall ph d,
      In ph (workflow_phases t) -> In d (dependencies ph) ->
      In d (map phase (workflow_phases t)) -> rank d < rank (phase ph)) ->
  exists errors,
    validate_workflow_dependencies t = Some errors /\
    forall p, ~ In (CircularDependency p) errors.
Proof.
  intros Hrank.
  unfold validate_workflow_dependencies, validate_workflow_dependencies_fuel.
  cbv zeta. destruct (cycles_reported t) as (cycles & -> & _ & Hcyc).
  eexists. split; [done|]. intros p [Hbad|Hp]%in_app_iff.
  { apply in_map_iff in Hbad as (q & [=] & _). }
  apply Hcyc in Hp as [_ (l & Hchain & Hdup)].
  apply Hdup. apply (ranked_chain_NoDup (dependency_graph t) rank); [|done].
  intros x y (deps & Hx & Hy & Hsome).
  unfold dependency_graph in Hx, Hsome.
  apply dependency_graph_lookup in Hx as [Hx|(ph & Hph & <- & <-)]; [done|].
  apply dependency_graph_is_Some in Hsome as [[? Hsome]|Hsome]; [done|].
  by apply (Hrank ph y).
Qed.

End ValidatorFacts.


(** * The further properties on the demonstration workflows *)

(** X5 on a demonstration workflow.
    After the retry scenario, a retry of development triggered by testing
    is recorded in the tracker of development and removes both results. *)
Lemma trigger_phase_retry_spec_witness :
  retry_trackers Demo.after_run !! "development"
    = Some (new_tracker "development" 3) /\
  exists st',
    _trigger_phase_retry Demo.dev_test 0 "development" "testing" "bug" Demo.after_run
      = Some st' /\
    retry_trackers st' !! "development" =
      Some (add_retry_attempt "testing" "bug" 0 (new_tracker "development" 3)) /\
    (forall q, q <> "development" ->
       retry_trackers st' !! q = retry_trackers Demo.after_run !! q) /\
    (forall q, In q (_get_phases_from Demo.dev_test "development") ->
       results st' !! q = None) /\
    (forall q, ~ In q (_get_phases_from Demo.dev_test "development") ->
       results st' !! q = results Demo.after_run !! q) /\
    trace st' =
      trace Demo.after_run ++
      [EvTriggerRetry "development" "testing"
         (tracker_retry_count (new_tracker "development" 3) + 1)].
Proof.
  assert (Htracker : retry_trackers Demo.after_run !! "development"
                     = Some (new_tracker "development" 3))
    by (vm_compute; reflexivity).
  split; [exact Htracker|].
  exact (trigger_phase_retry_spec Demo.dev_test 0 "development" "testing" "bug"
           Demo.after_run (new_tracker "development" 3) Htracker).
Defined.

(** X6 on a demonstration workflow.
    The retry scenario leaves the trackers of both phases as created. *)
Lemma execute_workflow_trackers_witness :
  project_template Demo.first_attempt = Some Demo.dev_test /\
  execute_workflow Demo.first_attempt
    = (Return (results Demo.after_run), Demo.after_run) /\
  (forall p, In p (BlockPlanner.all_phase_names Demo.dev_test) ->
     retry_trackers Demo.after_run !! p = Some (new_tracker p 3)) /\
  (forall q, ~ In q (BlockPlanner.all_phase_names Demo.dev_test) ->
     retry_trackers Demo.after_run !! q = retry_trackers Demo.first_attempt !! q).
Proof.
  assert (Ht : project_template Demo.first_attempt = Some Demo.dev_test)
    by reflexivity.
  assert (Hrun : execute_workflow Demo.first_attempt
                 = (Return (results Demo.after_run), Demo.after_run))
    by (vm_compute; reflexivity).
  split; [exact Ht|]. split; [exact Hrun|].
  exact (execute_workflow_trackers Demo.dev_test Demo.first_attempt
           (Return (results Demo.after_run)) Demo.after_run Ht Hrun).
Defined.

(** X7 on a demonstration workflow.
    After the retry scenario, in which the block was retried once, the
    retry status counts no retry. *)
Lemma retry_status_after_run_witness :
  project_template Demo.first_attempt = Some Demo.dev_test /\
  retry_trackers Demo.first_attempt = ∅ /\
  execute_workflow Demo.first_attempt
    = (Return (results Demo.after_run), Demo.after_run) /\
  phases_with_retries (get_retry_status Demo.after_run) = 0 /\
  total_retry_attempts (get_retry_status Demo.after_run) = 0.
Proof.
  assert (Ht : project_template Demo.first_attempt = Some Demo.dev_test)
    by reflexivity.
  assert (Hempty : retry_trackers Demo.first_attempt = ∅) by reflexivity.
  assert (Hrun : execute_workflow Demo.first_attempt
                 = (Return (results Demo.after_run), Demo.after_run))
    by (vm_compute; reflexivity).
  split; [exact Ht|]. split; [exact Hempty|]. split; [exact Hrun|].
  exact (retry_status_after_run Demo.dev_test Demo.first_attempt
           (Return (results Demo.after_run)) Demo.after_run Ht Hempty Hrun).
Defined.

(** X8 on a demonstration workflow.
    The retry scenario returns, and ends without a failed result. *)
Lemma returned_run_has_no_failed_result_witness :
  project_template Demo.first_attempt = Some Demo.dev_test /\
  all_successful Demo.first_attempt /\
  execute_workflow Demo.first_attempt
    = (Return (results Demo.after_run), Demo.after_run) /\
  results Demo.after_run = results Demo.after_run /\
  all_successful Demo.after_run /\
  exists counts,
    get_workflow_status Demo.after_run = Some counts /\ failed_phases counts = 0.
Proof.
  assert (Ht : project_template Demo.first_attempt = Some Demo.dev_test)
    by reflexivity.
  assert (Hall : all_successful Demo.first_attempt).
  { intros q r Hq. simpl in Hq. rewrite lookup_empty in Hq. discriminate Hq. }
  assert (Hrun : execute_workflow Demo.first_attempt
                 = (Return (results Demo.after_run), Demo.after_run))
    by (vm_compute; reflexivity).
  split; [exact Ht|]. split; [exact Hall|]. split; [exact Hrun|].
  exact (returned_run_has_no_failed_result Demo.dev_test Demo.first_attempt
           (results Demo.after_run) Demo.after_run Ht Hall Hrun).
Defined.

(** X11 on a demonstration workflow.
    The testing phase of the development block has its phase information. *)
Lemma planned_phase_has_info_witness :
  In ("development_testing", Demo.dev_test_block)
     (BlockPlanner._define_workflow_blocks BlockPlanner.elements_order
        Demo.dev_test) /\
  In "testing" Demo.dev_test_block /\
  exists phase_info,
    _get_phase_info Demo.dev_test "testing" = Some phase_info /\
    phase phase_info = "testing".
Proof.
  assert (Hblock : In ("development_testing", Demo.dev_test_block)
                      (BlockPlanner._define_workflow_blocks
                         BlockPlanner.elements_order Demo.dev_test))
    by (vm_compute; left; reflexivity).
  assert (Hphase : In "testing" Demo.dev_test_block)
    by (vm_compute; right; left; reflexivity).
  split; [exact Hblock|]. split; [exact Hphase|].
  exact (planned_phase_has_info BlockPlanner.elements_order Demo.dev_test
           "development_testing" Demo.dev_test_block "testing" Hblock Hphase).
Defined.

(** X12 on a demonstration workflow.
    With the five roles available, the tasks of [dev_test] are built. *)
Lemma create_agent_tasks_returns_witness :
  (forall r, In r Demo.roles -> AgentRole_of_value r <> None) /\
  exists ts logs,
    TemplateLoader.create_agent_tasks Demo.roles Demo.dev_test = Some (ts, logs).
Proof.
  assert (Hroles : forall r, In r Demo.roles -> AgentRole_of_value r <> None).
  { intros r Hr. simpl in Hr.
    destruct Hr as [<-|[<-|[<-|[<-|[<-|[]]]]]]; vm_compute; discriminate. }
  split; [exact Hroles|].
  exact (TaskFacts.create_agent_tasks_returns Demo.roles Demo.dev_test Hroles).
Defined.

(** X13 on a demonstration workflow.
    The task of the testing phase of [dev_test] is found for it. *)
Lemma compiled_phase_is_found_witness :
  TemplateLoader.create_agent_tasks Demo.roles Demo.dev_test
    = Some (Demo.compile Demo.dev_test, []) /\
  In Demo.testing_phase (workflow_phases Demo.dev_test) /\
  TemplateLoader.compilable Demo.roles (tasks Demo.dev_test) Demo.testing_phase
    = true /\
  exists i task,
    find_task_from 0 (phase Demo.testing_phase) (Demo.compile Demo.dev_test)
      = Some (i, task) /\
    Demo.compile Demo.dev_test !! i = Some task /\
    PyStr.endswith ("_" +:+ phase Demo.testing_phase) (task_id task) = true.
Proof.
  assert (Hc : TemplateLoader.create_agent_tasks Demo.roles Demo.dev_test
               = Some (Demo.compile Demo.dev_test, []))
    by (vm_compute; reflexivity).
  assert (Hin : In Demo.testing_phase (workflow_phases Demo.dev_test))
    by (right; left; reflexivity).
  assert (Hok : TemplateLoader.compilable Demo.roles (tasks Demo.dev_test)
                  Demo.testing_phase = true)
    by (vm_compute; reflexivity).
  split; [exact Hc|]. split; [exact Hin|]. split; [exact Hok|].
  exact (TaskFacts.compiled_phase_is_found Demo.roles Demo.dev_test
           (Demo.compile Demo.dev_test) [] Demo.testing_phase Hc Hin Hok).
Defined.

(** X15 on a workflow whose task asks for requirements.md, which exists,
    and design.md, which does not: the run drops design.md from the task. *)
Lemma execute_workflow_narrows_tasks_witness :
  project_template (Demo.fresh Demo.with_context []) = Some Demo.with_context /\
  map task_context_files (workflow_tasks (Demo.fresh Demo.with_context []))
    = [["requirements.md"; "design.md"]] /\
  map task_context_files
    (workflow_tasks
       (snd (@execute_workflow Demo.Script Demo.one_file
               (Demo.fresh Demo.with_context []))))
    = [["requirements.md"]] /\
  Forall2 narrowed (workflow_tasks (Demo.fresh Demo.with_context []))
    (workflow_tasks
       (snd (@execute_workflow Demo.Script Demo.one_file
               (Demo.fresh Demo.with_context [])))).
Proof.
  assert (Ht : project_template (Demo.fresh Demo.with_context [])
               = Some Demo.with_context)
    by reflexivity.
  split; [exact Ht|].
  split; [vm_compute; reflexivity|].
  split; [vm_compute; reflexivity|].
  exact (@execute_workflow_narrows_tasks Demo.Script Demo.one_file
           Demo.with_context (Demo.fresh Demo.with_context []) Ht).
Defined.

(** X20 on a demonstration workflow.
    [dev_test], in which testing depends on the earlier development, is
    reported free of circular dependencies. *)
Lemma ordered_workflow_has_no_cycle_witness :
  (forall ph d,
      In ph (workflow_phases Demo.dev_test) -> In d (dependencies ph) ->
      In d (map phase (workflow_phases Demo.dev_test)) ->
      Demo.rank d < Demo.rank (phase ph)) /\
  exists errors,
    Validator.validate_workflow_dependencies Demo.dev_test = Some errors /\
    forall p, ~ In (Validator.CircularDependency p) errors.
Proof.
  assert (Hrank : forall ph d,
             In ph (workflow_phases Demo.dev_test) -> In d (dependencies ph) ->
             In d (map phase (workflow_phases Demo.dev_test)) ->
             Demo.rank d < Demo.rank (phase ph)).
  { intros ph d Hph. simpl in Hph. destruct Hph as [<-|[<-|[]]]; simpl.
    - intros [].
    - intros [<-|[]] _. vm_compute. lia. }
  split; [exact Hrank|].
  exact (ValidatorFacts.ordered_workflow_has_no_cycle Demo.dev_test Demo.rank Hrank).
Defined.
